(** * earphones.heaven.lab: tempo analysis, rhythmic quantizer and 8D rotation engine

    A shallow embedding of
      - client/src/lib/audio-processor.ts  (class AudioProcessor)
      - src/lib/8d-effects.ts              (class EightDProcessor)
    and of what the control panel, the player and the waveform visualizer
    compute with them, followed by the properties of the specification that
    concern them and by further properties of the code.

    JavaScript numbers are IEEE-754 binary64 values.  The program's arithmetic is
    written once, over the interface [Number], and read at three carriers:
      - [float]  binary64 itself (Rocq's primitive floats): what the program runs;
      - [Q]      exact rationals: the same formulas without rounding, on which
                 the general statements are proved;
      - [R]      exact reals, where [Math.cos] and [Math.sin] have a meaning. *)

From Stdlib Require Import String Ascii DecimalString ZArith QArith Qround Qabs Qminmax List Bool Lia.
From Stdlib Require Import Floats Sorted.
From Stdlib Require Import Reals Lra Lqa.
Import ListNotations.

Set Implicit Arguments.

(* ================================================================== *)
(** ** JavaScript numbers *)
(* ================================================================== *)

(** The operations of the language and of [Math] that the two classes use.
    [num_lt a b] is [a < b]; [a > b] is written [num_lt b a], [a >= b] is
    [num_le b a].  [to_Z] reads an integer-valued number where the program uses
    it as a loop bound or an index. *)
Class Number (N : Type) : Type := {
  of_Z : Z -> N;
  num_add : N -> N -> N;
  num_sub : N -> N -> N;
  num_mul : N -> N -> N;
  num_div : N -> N -> N;
  num_lt : N -> N -> bool;
  num_le : N -> N -> bool;
  Math_abs : N -> N;
  Math_max : N -> N -> N;
  Math_min : N -> N -> N;
  Math_floor : N -> N;
  Math_round : N -> N;
  to_Z : N -> Z
}.

Declare Scope js_scope.
Delimit Scope js_scope with js.
Notation "x + y" := (num_add x y) : js_scope.
Notation "x - y" := (num_sub x y) : js_scope.
Notation "x * y" := (num_mul x y) : js_scope.
Notation "x / y" := (num_div x y) : js_scope.
Notation "x <? y" := (num_lt x y) (at level 70, no associativity) : js_scope.
Notation "x <=? y" := (num_le x y) (at level 70, no associativity) : js_scope.
Notation "x >? y" := (num_lt y x) (at level 70, no associativity) : js_scope.
Notation "x >=? y" := (num_le y x) (at level 70, no associativity) : js_scope.

(** A decimal literal [n/d] (d a power of ten): [0.05] is [dec 5 100].  On
    binary64 the correctly rounded quotient of the two integers is the double
    the literal denotes. *)
Definition dec {N} `{Number N} (n d : Z) : N := (of_Z n / of_Z d)%js.

(** *** Exact rationals.  Every result is reduced, so that equal values of
    closed computations are equal terms. *)
Definition Q_lt (a b : Q) : bool :=
  match Qcompare a b with Lt => true | _ => false end.

Definition Q_floor (a : Q) : Q := inject_Z (Qfloor a).

(** [Math.round]: the nearest integer, a tie going up. *)
Definition Q_round (a : Q) : Q := inject_Z (Qfloor (a + (1 # 2))).

#[export] Instance Q_Number : Number Q := {
  of_Z := inject_Z;
  num_add := fun a b => Qred (a + b);
  num_sub := fun a b => Qred (a - b);
  num_mul := fun a b => Qred (a * b);
  num_div := fun a b => Qred (a / b);
  num_lt := Q_lt;
  num_le := Qle_bool;
  Math_abs := Qabs;
  Math_max := fun a b => if Q_lt a b then b else a;
  Math_min := fun a b => if Q_lt b a then b else a;
  Math_floor := Q_floor;
  Math_round := Q_round;
  to_Z := Qfloor
}.

(** *** binary64 *)
Module F64.

(** The double of an integer (of magnitude below 2^63, rounded to nearest). *)
Definition of_Z (z : Z) : float :=
  if (z <? 0)%Z then PrimFloat.opp (PrimFloat.of_uint63 (Uint63.of_Z (- z)))
  else PrimFloat.of_uint63 (Uint63.of_Z z).

(** A finite double is [n * 2^e] for integers [n] and [e]; [None] for NaN
    and the infinities. *)
Definition decompose (x : float) : option (Z * Z) :=
  match Prim2SF x with
  | S754_zero _ => Some (0, 0)%Z
  | S754_finite s m e => Some (if s then Z.neg m else Z.pos m, e)
  | _ => None
  end.

(** [Math.floor]: a double with [e >= 0] is an integer already; otherwise the
    floor of [n / 2^(-e)] is [n] shifted right by [-e]. *)
Definition floor (x : float) : float :=
  match decompose x with
  | Some (n, e) => if (0 <=? e)%Z then x else of_Z (Z.shiftr n (- e))
  | None => x
  end.

(** [Math.round]: the floor of [n / 2^(-e) + 1/2], a tie going up.  (A zero
    result is [+0]; the sign of a zero is not observed by the program.) *)
Definition round (x : float) : float :=
  match decompose x with
  | Some (n, e) =>
      if (0 <=? e)%Z then x
      else of_Z (Z.shiftr (2 * n + 2 ^ (- e)) (1 - e))
  | None => x
  end.

(** The integer a double holds, where it is used as a size or an index. *)
Definition to_Z (x : float) : Z :=
  match decompose x with
  | Some (n, e) => if (0 <=? e)%Z then (n * 2 ^ e)%Z else Z.shiftr n (- e)
  | None => 0%Z
  end.

(** [Math.max] and [Math.min]: NaN if an argument is NaN, and [+0] above [-0]. *)
Definition max (a b : float) : float :=
  if PrimFloat.is_nan a || PrimFloat.is_nan b then PrimFloat.nan
  else if PrimFloat.ltb a b then b
  else if PrimFloat.ltb b a then a
  else if PrimFloat.get_sign a then b else a.

Definition min (a b : float) : float :=
  if PrimFloat.is_nan a || PrimFloat.is_nan b then PrimFloat.nan
  else if PrimFloat.ltb a b then a
  else if PrimFloat.ltb b a then b
  else if PrimFloat.get_sign a then a else b.

End F64.

#[export] Instance F64_Number : Number float := {
  of_Z := F64.of_Z;
  num_add := PrimFloat.add;
  num_sub := PrimFloat.sub;
  num_mul := PrimFloat.mul;
  num_div := PrimFloat.div;
  num_lt := PrimFloat.ltb;
  num_le := PrimFloat.leb;
  Math_abs := PrimFloat.abs;
  Math_max := F64.max;
  Math_min := F64.min;
  Math_floor := F64.floor;
  Math_round := F64.round;
  to_Z := F64.to_Z
}.

(** *** Exact reals *)
Definition R_lt (a b : R) : bool := if Rlt_dec a b then true else false.
Definition R_le (a b : R) : bool := if Rle_dec a b then true else false.

#[export] Instance R_Number : Number R := {
  of_Z := IZR;
  num_add := Rplus;
  num_sub := Rminus;
  num_mul := Rmult;
  num_div := Rdiv;
  num_lt := R_lt;
  num_le := R_le;
  Math_abs := Rabs;
  Math_max := Rmax;
  Math_min := Rmin;
  Math_floor := fun a => IZR (Int_part a);
  Math_round := fun a => IZR (Int_part (a + / 2));
  to_Z := Int_part
}.


(* ================================================================== *)
(** ** Completions of (async) methods *)
(* ================================================================== *)

(** A method of a class with private state [S] either returns (an async method:
    its promise resolves), throws (its promise rejects) or does not terminate.
    The state at the end is kept in both terminating cases, so that a [catch]
    continues from the state the [try] block left. *)
Inductive Completion (S A : Type) : Type :=
| Normal (a : A) (s : S)
| Throw (e : string) (s : S)
| Diverge.

Arguments Normal {S A} a s.
Arguments Throw {S A} e s.
Arguments Diverge {S A}.

Definition M (S A : Type) : Type := S -> Completion S A.

Definition ret {S A} (a : A) : M S A := fun s => Normal a s.

Definition throw {S A} (e : string) : M S A := fun s => Throw e s.

Definition bind {S A B} (m : M S A) (k : A -> M S B) : M S B :=
  fun s =>
    match m s with
    | Normal a s' => k a s'
    | Throw e s' => Throw e s'
    | Diverge => Diverge
    end.

(** [try { body } catch (error) { handler }] *)
Definition try_catch {S A} (body : M S A) (handler : string -> M S A) : M S A :=
  fun s =>
    match body s with
    | Normal a s' => Normal a s'
    | Throw e s' => handler e s'
    | Diverge => Diverge
    end.

(** [await p] for a platform promise whose outcome is known: [None] rejects. *)
Definition await {S A} (outcome : option A) (rejection : string) : M S A :=
  match outcome with
  | Some a => ret a
  | None => throw rejection
  end.

Notation "x <- m ;; k" := (bind m (fun x => k))
  (at level 61, m at next level, right associativity).
Notation "m ;;; k" := (bind m (fun _ => k))
  (at level 61, right associativity).

(* ================================================================== *)
(** ** client/src/lib/audio-processor.ts *)
(* ================================================================== *)

Module AudioProcessor.
Section WithNumber.
Context {N : Type} `{Number N}.
Local Open Scope js_scope.

(** [interface BPMAnalysisResult] *)
Record BPMAnalysisResult : Type := {
  bpm : N;
  confidence : N;
  optimalSpeed : N
}.

(** The platform's [AudioBuffer], as far as [detectBPM] reads it:
    [getChannelData(0)] and [sampleRate]. *)
Record AudioBuffer : Type := {
  channelData0 : list N;
  sampleRate : Z
}.

Definition ArrayBuffer : Type := list Byte.byte.

(** A [File]: the outcome of [file.arrayBuffer()], [None] when the read rejects. *)
Record File : Type := { arrayBuffer : option ArrayBuffer }.

(** The platform's [AudioContext]: [decodeAudioData] is the platform decoder,
    [None] when it rejects. *)
Record AudioContext : Type := {
  decodeAudioData : ArrayBuffer -> option AudioBuffer
}.

(** The private fields of [class AudioProcessor]. *)
Record state : Type := {
  audioContext : option AudioContext;
  audioBuffer : option AudioBuffer
}.

(** [constructor()] with [initializeContext()]: [platform] is what
    [new AudioContext()] gives, [None] when it throws; the [catch] then logs
    the error and leaves the field [null]. *)
Definition constructor (platform : option AudioContext) : state :=
  {| audioContext := platform; audioBuffer := None |}.

Definition set_audioBuffer (b : AudioBuffer) : M state unit :=
  fun this => Normal tt {| audioContext := audioContext this; audioBuffer := Some b |}.

(** [channelData[j]]; the loops below only read inside the array. *)
Definition at_index (a : list N) (j : nat) : N := nth j a (of_Z 0).

(** The inner loop: [for (j = i; j < i + windowSize; j++) sum += c[j] * c[j]]. *)
Definition windowSum (channelData : list N) (i windowSize : Z) : N :=
  fold_left (fun sum j => sum + at_index channelData j * at_index channelData j)
            (seq (Z.to_nat i) (Z.to_nat windowSize)) (of_Z 0).

(** The outer loop:
    [for (i = 0; i < channelData.length - windowSize; i += hopSize)].
    [None] when [fuel] iterations do not reach the exit. *)
Fixpoint energyLoop (channelData : list N) (windowSize hopSize : Z)
         (fuel : nat) (i : Z) : option (list N) :=
  if (i <? Z.of_nat (length channelData) - windowSize)%Z then
    match fuel with
    | O => None
    | S fuel' =>
        let sum := windowSum channelData i windowSize in
        option_map (cons (sum / of_Z windowSize))
                   (energyLoop channelData windowSize hopSize fuel' (i + hopSize))
    end
  else Some [].

(** The number of arguments the engine accepts in one call.  The language
    sets no bound; an engine has one, of the order of a hundred thousand, and
    throws a RangeError beyond it. *)
Variable maxArguments : Z.

(** The largest entry of a non-empty array. *)
Definition Math_max_list (a : list N) : N :=
  match a with
  | [] => of_Z 0
  | x :: rest => fold_left Math_max rest x
  end.

(** [Math.max(...energy)], called on a non-empty array only; [None] is the
    RangeError of a call with more arguments than the engine accepts. *)
Definition Math_max_spread (a : list N) : option N :=
  if (maxArguments <? Z.of_nat (length a))%Z then None
  else Some (Math_max_list a).

(** [for (i = 1; i < energy.length - 1; i++)] over the indices that are
    left, collecting the peak times; [None] when [Math.max(...energy)]
    throws. *)
Fixpoint peakLoop (energy : list N) (hopSize sampleRate : Z) (indices : list nat)
  : option (list N) :=
  match indices with
  | [] => Some []
  | i :: rest =>
      if (at_index energy i >? at_index energy (i - 1))
         && (at_index energy i >? at_index energy (i + 1))
      then
        match Math_max_spread energy with
        | None => None
        | Some max =>
            let threshold := max * dec 3 10 in
            if at_index energy i >? threshold
            then option_map (cons (of_Z (Z.of_nat i) * of_Z hopSize / of_Z sampleRate))
                            (peakLoop energy hopSize sampleRate rest)
            else peakLoop energy hopSize sampleRate rest
        end
      else peakLoop energy hopSize sampleRate rest
  end.

Definition findPeaks (energy : list N) (hopSize sampleRate : Z) : option (list N) :=
  peakLoop energy hopSize sampleRate (seq 1 (length energy - 2)).

(** [for (i = 1; i < peaks.length; i++) intervals.push(peaks[i] - peaks[i-1])] *)
Fixpoint peakIntervals (peaks : list N) : list N :=
  match peaks with
  | p0 :: (p1 :: _) as rest => (p1 - p0) :: peakIntervals rest
  | _ => []
  end.

(** [windowSize = Math.floor(sampleRate * 0.1)] and
    [hopSize = Math.floor(windowSize / 2)] *)
Definition windowSizeOf (sampleRate : Z) : Z :=
  to_Z (Math_floor (of_Z sampleRate * dec 1 10)).

Definition hopSizeOf (windowSize : Z) : Z :=
  to_Z (Math_floor (of_Z windowSize / of_Z 2)).

(** [private async detectBPM()].  The outer loop is given one more iteration
    than there are samples after the first window.  With a positive hop it
    needs no more.  A loop that has not ended by then never ends, its hop
    being zero or less: [energy.push] then runs until the array cannot grow,
    which is a RangeError.  The other RangeError is that of
    [Math.max(...energy)]. *)
Definition detectBPM : M state N :=
  fun this =>
    match audioBuffer this, audioContext this with
    | Some buf, Some _ =>
        let channelData := channelData0 buf in
        let sampleRate := sampleRate buf in
        let windowSize := windowSizeOf sampleRate in
        let hopSize := hopSizeOf windowSize in
        match energyLoop channelData windowSize hopSize
                         (S (Z.to_nat (Z.of_nat (length channelData) - windowSize)))
                         0 with
        | None => Throw "RangeError: Invalid array length" this
        | Some energy =>
            match findPeaks energy hopSize sampleRate with
            | None => Throw "RangeError: Maximum call stack size exceeded" this
            | Some peaks =>
                let intervals := peakIntervals peaks in
                if (length intervals =? 0)%nat then Normal (of_Z 120) this
                else
                  let avgInterval :=
                    fold_left (fun a b => a + b) intervals (of_Z 0)
                    / of_Z (Z.of_nat (length intervals)) in
                  let bpm := Math_round (of_Z 60 / avgInterval) in
                  Normal (Math_max (of_Z 60) (Math_min (of_Z 200) bpm)) this
            end
        end
    | _, _ => Normal (of_Z 120) this
    end.

(** [private calculateOptimalSpeed(bpm)] *)
Definition calculateOptimalSpeed (bpm : N) : N :=
  let beatFreq := bpm / of_Z 60 in
  let optimalSpeed := Math_max (dec 5 10) (Math_min (of_Z 5) (beatFreq * dec 25 100)) in
  Math_round (optimalSpeed * of_Z 100) / of_Z 100.

(** The value of the [catch] branch of [analyzeFile]. *)
Definition fallback : BPMAnalysisResult :=
  {| bpm := of_Z 120; confidence := dec 5 10; optimalSpeed := of_Z 2 |}.

(** [async analyzeFile(file)] *)
Definition analyzeFile (file : File) : M state BPMAnalysisResult :=
  fun this =>
    match audioContext this with
    | None => Throw "Audio context not initialized" this
    | Some ctx =>
        try_catch
          (buffer <- await (arrayBuffer file) "NotReadableError" ;;
           decoded <- await (decodeAudioData ctx buffer) "EncodingError" ;;
           set_audioBuffer decoded ;;;
           bpm <- detectBPM ;;
           let optimalSpeed := calculateOptimalSpeed bpm in
           ret {| bpm := bpm; confidence := dec 85 100; optimalSpeed := optimalSpeed |})
          (fun error => ret fallback)
          this
    end.

(** [Array.prototype.sort(compare)]: a stable sort; [a] goes before [b] when
    [compare(a, b) < 0]. *)
Fixpoint insert_by (compare : N -> N -> N) (x : N) (sorted : list N) : list N :=
  match sorted with
  | [] => [x]
  | y :: rest =>
      if compare x y <? of_Z 0 then x :: y :: rest
      else y :: insert_by compare x rest
  end.

Definition Array_sort (compare : N -> N -> N) (a : list N) : list N :=
  fold_left (fun sorted x => insert_by compare x sorted) a [].

Definition rhythmicRatios : list N :=
  [ of_Z 1 / of_Z 4;
    of_Z 1 / of_Z 2;
    of_Z 2 / of_Z 3;
    of_Z 3 / of_Z 4;
    of_Z 1;
    of_Z 4 / of_Z 3;
    of_Z 3 / of_Z 2;
    of_Z 2;
    of_Z 5 / of_Z 2;
    of_Z 3 ].

(** [getRhythmicMultipliers(bpm)] *)
Definition getRhythmicMultipliers (bpm : N) : list N :=
  if bpm <=? of_Z 0 then
    [dec 25 100; dec 5 10; dec 75 100; of_Z 1; dec 125 100; dec 15 10; of_Z 2]
  else
    let beatFreq := bpm / of_Z 60 in
    let baseSpeed := beatFreq * dec 25 100 in
    Array_sort (fun a b => a - b)
      (filter (fun mult => (mult >=? dec 25 100) && (mult <=? of_Z 3))
              (map (fun ratio => ratio) rhythmicRatios)).

(** The loop of [getClosestRhythmicMultiplier]: the state is [(closest, minDiff)]. *)
Definition closest_step (currentValue : N) (acc : N * N) (mult : N) : N * N :=
  let diff := Math_abs (currentValue - mult) in
  if diff <? snd acc then (mult, diff) else acc.

(** [getClosestRhythmicMultiplier(currentValue, bpm)]; [None] stands for the
    [undefined] that [rhythmicMults[0]] is on an empty array. *)
Definition getClosestRhythmicMultiplier (currentValue bpm : N) : option N :=
  let rhythmicMults := getRhythmicMultipliers bpm in
  match rhythmicMults with
  | [] => None
  | first :: _ =>
      let closest := first in
      let minDiff := Math_abs (currentValue - closest) in
      Some (fst (fold_left (closest_step currentValue) rhythmicMults (closest, minDiff)))
  end.

End WithNumber.

Arguments BPMAnalysisResult N : clear implicits.
Arguments AudioBuffer N : clear implicits.
Arguments AudioContext N : clear implicits.
Arguments state N : clear implicits.

End AudioProcessor.


(* ================================================================== *)
(** ** src/lib/8d-effects.ts *)
(* ================================================================== *)

Module EightDProcessor.
Section WithNumber.
Context {N : Type} `{Number N}.

(** [Math.cos] and [Math.sin]. *)
Variables Math_cos Math_sin : N -> N.

Local Open Scope js_scope.

(** [interface EightDConfig] *)
Record EightDConfig : Type := {
  speed : N;
  intensity : N;
  radius : N
}.

(** [Partial<EightDConfig>]: [None] is a field that is not present. *)
Record PartialConfig : Type := {
  speed_opt : option N;
  intensity_opt : option N;
  radius_opt : option N
}.

Record Vec3 : Type := { vx : N; vy : N; vz : N }.

(** A [PannerNode]: the three position parameters and the settings of
    [setupNodes].  [param.setValueAtTime(v, currentTime)] gives the parameter
    the value [v] from now on: a parameter is modelled by its current value.
    The platform takes finite values only and throws a TypeError on NaN or an
    infinity; the model writes any number, and on the exact carriers every
    number is finite. *)
Record PannerNode : Type := {
  position : Vec3;
  panningModel : string;
  distanceModel : string;
  refDistance : N;
  maxDistance : N;
  rolloffFactor : N;
  coneInnerAngle : N;
  coneOuterAngle : N;
  coneOuterGain : N
}.

Record GainNode : Type := { gain : N }.

Definition Uint8Array : Type := list Byte.byte.

(** [new Uint8Array(n)]: [n] zero bytes. *)
Definition new_Uint8Array (n : nat) : Uint8Array := repeat Byte.x00 n.

(** An [AnalyserNode] of the Web Audio API.  [frequencyData] is the byte
    spectrum the node currently holds; the audio thread replaces it. *)
Record AnalyserNode : Type := {
  fftSize : nat;
  smoothingTimeConstant : N;
  frequencyData : Uint8Array
}.

(** The read-only attribute: half the FFT size. *)
Definition frequencyBinCount (a : AnalyserNode) : nat := Nat.div (fftSize a) 2.

(** Entries of [src] written over the start of [dst], index by index; [dst]
    keeps its length, entries with no counterpart stay as they are. *)
Fixpoint overwrite (src dst : Uint8Array) : Uint8Array :=
  match dst, src with
  | _ :: dst', b :: src' => b :: overwrite src' dst'
  | _, _ => dst
  end.

(** [analyser.getByteFrequencyData(array)] fills the caller's array. *)
Definition getByteFrequencyData (a : AnalyserNode) (array : Uint8Array) : Uint8Array :=
  overwrite (frequencyData a) array.

(** [audioContext.listener]: [None] where the browser has no [positionX]
    (resp. [forwardX]) parameters; the orientation is (forward, up). *)
Record AudioListener : Type := {
  listenerPosition : option Vec3;
  listenerOrientation : option (Vec3 * Vec3)
}.

(** The part of the host the class acts on: the listener of its audio
    context, and the animation-frame callbacks [() => this.animate()] that
    are requested and not yet run or cancelled, by handle. *)
Record Host : Type := {
  listener : AudioListener;
  nextHandle : nat;
  pendingFrames : list nat
}.

(** The private fields of [class EightDProcessor], and its host. *)
Record state : Type := {
  pannerNodes : list PannerNode;
  gainNode : GainNode;
  analyserNode : AnalyserNode;
  isActive : bool;
  animationId : option nat;
  angle : N;
  config : EightDConfig;
  host : Host
}.

Definition set_pannerNodes (v : list PannerNode) (s : state) : state :=
  {| pannerNodes := v; gainNode := gainNode s; analyserNode := analyserNode s;
     isActive := isActive s; animationId := animationId s; angle := angle s;
     config := config s; host := host s |}.

Definition set_gainNode (v : GainNode) (s : state) : state :=
  {| pannerNodes := pannerNodes s; gainNode := v; analyserNode := analyserNode s;
     isActive := isActive s; animationId := animationId s; angle := angle s;
     config := config s; host := host s |}.

Definition set_analyserNode (v : AnalyserNode) (s : state) : state :=
  {| pannerNodes := pannerNodes s; gainNode := gainNode s; analyserNode := v;
     isActive := isActive s; animationId := animationId s; angle := angle s;
     config := config s; host := host s |}.

Definition set_isActive (v : bool) (s : state) : state :=
  {| pannerNodes := pannerNodes s; gainNode := gainNode s; analyserNode := analyserNode s;
     isActive := v; animationId := animationId s; angle := angle s;
     config := config s; host := host s |}.

Definition set_animationId (v : option nat) (s : state) : state :=
  {| pannerNodes := pannerNodes s; gainNode := gainNode s; analyserNode := analyserNode s;
     isActive := isActive s; animationId := v; angle := angle s;
     config := config s; host := host s |}.

Definition set_angle (v : N) (s : state) : state :=
  {| pannerNodes := pannerNodes s; gainNode := gainNode s; analyserNode := analyserNode s;
     isActive := isActive s; animationId := animationId s; angle := v;
     config := config s; host := host s |}.

Definition set_config (v : EightDConfig) (s : state) : state :=
  {| pannerNodes := pannerNodes s; gainNode := gainNode s; analyserNode := analyserNode s;
     isActive := isActive s; animationId := animationId s; angle := angle s;
     config := v; host := host s |}.

Definition set_host (v : Host) (s : state) : state :=
  {| pannerNodes := pannerNodes s; gainNode := gainNode s; analyserNode := analyserNode s;
     isActive := isActive s; animationId := animationId s; angle := angle s;
     config := config s; host := v |}.

Definition set_position (v : Vec3) (p : PannerNode) : PannerNode :=
  {| position := v; panningModel := panningModel p; distanceModel := distanceModel p;
     refDistance := refDistance p; maxDistance := maxDistance p;
     rolloffFactor := rolloffFactor p; coneInnerAngle := coneInnerAngle p;
     coneOuterAngle := coneOuterAngle p; coneOuterGain := coneOuterGain p |}.

(** [requestAnimationFrame(() => this.animate())]: a fresh handle. *)
Definition requestAnimationFrame (h : Host) : nat * Host :=
  (nextHandle h,
   {| listener := listener h; nextHandle := S (nextHandle h);
      pendingFrames := pendingFrames h ++ [nextHandle h] |}).

Definition cancelAnimationFrame (id : nat) (h : Host) : Host :=
  {| listener := listener h; nextHandle := nextHandle h;
     pendingFrames := filter (fun k => negb (Nat.eqb k id)) (pendingFrames h) |}.

(** The [try] block of [animate]: the listener at the centre, facing forward. *)
Definition place_listener (l : AudioListener) : AudioListener :=
  {| listenerPosition :=
       match listenerPosition l with
       | Some _ => Some {| vx := of_Z 0; vy := of_Z 0; vz := of_Z 0 |}
       | None => None
       end;
     listenerOrientation :=
       match listenerOrientation l with
       | Some _ => Some ({| vx := of_Z 0; vy := of_Z 0; vz := of_Z (-1) |},
                         {| vx := of_Z 0; vy := of_Z 1; vz := of_Z 0 |})
       | None => None
       end |}.

(** [constructor(audioContext, source)] with [setupNodes()], on a host [h].
    (The connections of the audio graph are not part of the model.) *)
Definition constructor (h : Host) : state :=
  {| pannerNodes :=
       [ {| position := {| vx := of_Z 3; vy := of_Z 0; vz := of_Z 0 |};
            panningModel := "HRTF";
            distanceModel := "linear";
            refDistance := of_Z 1;
            maxDistance := of_Z 10;
            rolloffFactor := of_Z 1;
            coneInnerAngle := of_Z 180;
            coneOuterAngle := of_Z 360;
            coneOuterGain := dec 8 10 |} ];
     gainNode := {| gain := of_Z 1 |};
     analyserNode :=
       {| fftSize := 2048;
          smoothingTimeConstant := dec 3 10;
          frequencyData := new_Uint8Array 1024 |};
     isActive := false;
     animationId := None;
     angle := of_Z 0;
     config := {| speed := dec 25 10; intensity := of_Z 1; radius := of_Z 5 |};
     host := h |}.

(** [private animate()] *)
Definition animate : M state unit :=
  fun this =>
    if negb (isActive this) then Normal tt this
    else
      let this := set_angle (angle this + speed (config this) * dec 5 100) this in
      match pannerNodes this with
      | [] => Throw "TypeError" this
      | panner :: others =>
          let radius := radius (config this) * intensity (config this) in
          let x := Math_cos (angle this) * radius in
          let z := Math_sin (angle this) * radius in
          let y := of_Z 0 in
          let this :=
            set_pannerNodes
              (set_position {| vx := x; vy := y; vz := z |} panner :: others) this in
          let h := host this in
          let h := {| listener := place_listener (listener h);
                      nextHandle := nextHandle h;
                      pendingFrames := pendingFrames h |} in
          let (id, h) := requestAnimationFrame h in
          Normal tt (set_animationId (Some id) (set_host h this))
      end.

(** [start()] *)
Definition start : M state unit :=
  fun this =>
    if isActive this then Normal tt this
    else animate (set_isActive true this).

(** [stop()] *)
Definition stop : M state unit :=
  fun this =>
    let this := set_isActive false this in
    let this :=
      match animationId this with
      | Some id => set_animationId None (set_host (cancelAnimationFrame id (host this)) this)
      | None => this
      end in
    let this :=
      match pannerNodes this with
      | panner :: others =>
          set_pannerNodes
            (set_position {| vx := of_Z 0; vy := of_Z 0; vz := of_Z (-1) |} panner
             :: others) this
      | [] => this
      end in
    Normal tt this.

(** [{ ...old, ...partial }] *)
Definition merge (old : EightDConfig) (partial : PartialConfig) : EightDConfig :=
  {| speed := match speed_opt partial with Some v => v | None => speed old end;
     intensity := match intensity_opt partial with Some v => v | None => intensity old end;
     radius := match radius_opt partial with Some v => v | None => radius old end |}.

(** [updateConfig(config)] *)
Definition updateConfig (partial : PartialConfig) : M state unit :=
  fun this => Normal tt (set_config (merge (config this) partial) this).

(** [getAnalyserData()] *)
Definition getAnalyserData : M state Uint8Array :=
  fun this =>
    let dataArray := new_Uint8Array (frequencyBinCount (analyserNode this)) in
    let dataArray := getByteFrequencyData (analyserNode this) dataArray in
    Normal dataArray this.

(** [setVolume(volume)] *)
Definition setVolume (volume : N) : M state unit :=
  fun this =>
    Normal tt (set_gainNode {| gain := Math_max (of_Z 0) (Math_min (of_Z 1) volume) |} this).

(** The host runs the animation-frame callbacks that are pending: each one
    is [() => this.animate()]. *)
Fixpoint run_callbacks (handles : list nat) : M state unit :=
  match handles with
  | [] => ret tt
  | _ :: rest => animate ;;; run_callbacks rest
  end.

Definition frame : M state unit :=
  fun this =>
    let h := host this in
    run_callbacks (pendingFrames h)
      (set_host {| listener := listener h; nextHandle := nextHandle h;
                   pendingFrames := [] |} this).

(** The audio thread gives the analyser a new spectrum. *)
Definition render (data : Uint8Array) : M state unit :=
  fun this =>
    let a := analyserNode this in
    Normal tt (set_analyserNode
                 {| fftSize := fftSize a;
                    smoothingTimeConstant := smoothingTimeConstant a;
                    frequencyData := data |} this).

(** What can happen to an engine: the calls of its public methods, and the
    two events of the host. *)
Inductive event : Type :=
| Start
| Stop
| UpdateConfig (partial : PartialConfig)
| GetAnalyserData
| SetVolume (volume : N)
| Frame
| Render (data : Uint8Array).

Definition step (e : event) : M state unit :=
  match e with
  | Start => start
  | Stop => stop
  | UpdateConfig partial => updateConfig partial
  | GetAnalyserData => getAnalyserData ;;; ret tt
  | SetVolume volume => setVolume volume
  | Frame => frame
  | Render data => render data
  end.

Fixpoint run (es : list event) : M state unit :=
  match es with
  | [] => ret tt
  | e :: rest => step e ;;; run rest
  end.

(** The position the panner currently has. *)
Definition pannerPosition (s : state) : option Vec3 :=
  option_map position (hd_error (pannerNodes s)).

End WithNumber.

Arguments EightDConfig N : clear implicits.
Arguments PartialConfig N : clear implicits.
Arguments Vec3 N : clear implicits.
Arguments PannerNode N : clear implicits.
Arguments GainNode N : clear implicits.
Arguments AnalyserNode N : clear implicits.
Arguments AudioListener N : clear implicits.
Arguments Host N : clear implicits.
Arguments state N : clear implicits.
Arguments event N : clear implicits.

End EightDProcessor.

(* ================================================================== *)
(** ** The vocabulary of the specification *)
(* ================================================================== *)

Section SpecVocabulary.
Context {N : Type} `{Number N}.
Local Open Scope js_scope.

(** Numeric equality, [a == b] on numbers. *)
Definition num_eq (a b : N) : bool := (a <=? b) && (b <=? a).

Definition mem (a : N) (l : list N) : bool := existsb (num_eq a) l.

(** Sorted ascending: every entry is [<=] every later one. *)
Fixpoint ascending (l : list N) : bool :=
  match l with
  | [] => true
  | a :: rest => forallb (fun b => a <=? b) rest && ascending rest
  end.

(** Strictly ascending: sorted, and no value twice. *)
Fixpoint strictly_ascending (l : list N) : bool :=
  match l with
  | [] => true
  | a :: rest => forallb (fun b => a <? b) rest && strictly_ascending rest
  end.

(** [abs(value - candidate)] *)
Definition distance (value candidate : N) : N := Math_abs (value - candidate).

(** The set of section 8: [{0.25,0.5,0.667,0.75,1,1.333,1.5,2,2.5,3}]. *)
Definition spec_candidate_set : list N :=
  [dec 25 100; dec 5 10; dec 667 1000; dec 75 100; of_Z 1;
   dec 1333 1000; dec 15 10; of_Z 2; dec 25 10; of_Z 3].

(** The sequence the guard [bpm <= 0] returns. *)
Definition guard_multipliers : list N :=
  [dec 25 100; dec 5 10; dec 75 100; of_Z 1; dec 125 100; dec 15 10; of_Z 2].

(** A number to three decimal places. *)
Definition to_3_decimals (a : N) : N := Math_round (a * of_Z 1000) / of_Z 1000.

(** [clamp(x, lo, hi)] *)
Definition clamp (x lo hi : N) : N :=
  if x <? lo then lo else if hi <? x then hi else x.

(** A number to two decimal places. *)
Definition to_2_decimals (a : N) : N := Math_round (a * of_Z 100) / of_Z 100.

(** Section 4.2: [beatFreq = bpm/60; speed = clamp(beatFreq * 0.25, 0.5, 5.0)],
    rounded to 2 decimal places. *)
Definition mapSpeed (bpm : N) : N :=
  let beatFreq := bpm / of_Z 60 in
  to_2_decimals (clamp (beatFreq * dec 25 100) (dec 5 10) (of_Z 5)).

(** [P] on the [count] integers from [lo] on. *)
Fixpoint forall_from (P : Z -> bool) (count : nat) (lo : Z) : bool :=
  match count with
  | O => true
  | S count' => P lo && forall_from P count' (lo + 1)
  end.

(** A buffer of [n] samples of silence. *)
Definition silence (n : nat) (rate : Z) : AudioProcessor.AudioBuffer N :=
  {| AudioProcessor.channelData0 := repeat (of_Z 0) n;
     AudioProcessor.sampleRate := rate |}.

(** Half a second of silence at 8 kHz. *)
Definition half_second_of_silence : AudioProcessor.AudioBuffer N :=
  silence 4000 8000.

(** A recording of ten samples at 20 Hz with one burst: eight energy
    windows, with a local maximum at the burst. *)
Definition a_burst : AudioProcessor.AudioBuffer N :=
  {| AudioProcessor.channelData0 :=
       map of_Z [0; 0; 0; 1; 1; 0; 0; 0; 0; 0]%Z;
     AudioProcessor.sampleRate := 20 |}.

(** A context whose decoder yields [b] for every file. *)
Definition decodes_to (b : AudioProcessor.AudioBuffer N) : AudioProcessor.AudioContext N :=
  {| AudioProcessor.decodeAudioData := fun _ => Some b |}.

(** A file that can be read. *)
Definition readable_file : AudioProcessor.File :=
  {| AudioProcessor.arrayBuffer := Some [] |}.

(** What the platform decodes [file] to for the processor [this], if the
    processor has a context and the read and the decoding succeed. *)
Definition decoded (this : AudioProcessor.state N) (file : AudioProcessor.File)
  : option (AudioProcessor.AudioBuffer N) :=
  match AudioProcessor.audioContext this, AudioProcessor.arrayBuffer file with
  | Some ctx, Some bytes => AudioProcessor.decodeAudioData ctx bytes
  | _, _ => None
  end.

(** The analysis windows advance: the window size computed from the sample
    rate is not negative and the hop computed from it is positive. *)
Definition positive_hop (sampleRate : Z) : Prop :=
  (0 <= AudioProcessor.windowSizeOf sampleRate)%Z
  /\ (1 <= AudioProcessor.hopSizeOf (AudioProcessor.windowSizeOf sampleRate))%Z.

Definition positive_hopb (sampleRate : Z) : bool :=
  let windowSize := AudioProcessor.windowSizeOf sampleRate in
  (0 <=? windowSize)%Z && (1 <=? AudioProcessor.hopSizeOf windowSize)%Z.

(** The processor after a successful decoding of [b]. *)
Definition holding (this : AudioProcessor.state N) (b : AudioProcessor.AudioBuffer N)
  : AudioProcessor.state N :=
  {| AudioProcessor.audioContext := AudioProcessor.audioContext this;
     AudioProcessor.audioBuffer := Some b |}.

(** The result of a completion that returned. *)
Definition returned {S A} (c : Completion S A) : option A :=
  match c with Normal a _ => Some a | _ => None end.

(** The way a completion ended, and with what, the final state left out. *)
Definition outcome {S A} (c : Completion S A) : Completion unit A :=
  match c with
  | Normal a _ => Normal a tt
  | Throw e _ => Throw e tt
  | Diverge => Diverge
  end.

End SpecVocabulary.


(** *** The rotation engine *)

Section EngineVocabulary.
Context {N : Type} `{Number N}.
Import EightDProcessor.

(** The centre-front reference point [(0, 0, -1)]. *)
Definition centre_front : Vec3 N :=
  {| vx := of_Z 0; vy := of_Z 0; vz := of_Z (-1) |}.

(** What the constructor sets up and no method undoes: one panner, and an
    analysis window of 2048 samples. *)
Definition wired (s : state N) : Prop :=
  (exists p, pannerNodes s = [p]) /\ fftSize (analyserNode s) = 2048%nat.

(** The scenario of section 8: [speed = 2.0, radius = 1.0, intensity = 1.0]
    and ten ticks from angle 0: the tick [start()] makes and nine frames. *)
Definition scenario_config : PartialConfig N :=
  {| speed_opt := Some (of_Z 2);
     intensity_opt := Some (of_Z 1);
     radius_opt := Some (of_Z 1) |}.

Definition ten_ticks : list (event N) :=
  UpdateConfig scenario_config :: Start :: repeat Frame 9.

(** A host with a full listener and no frame requested. *)
Definition a_host : Host N :=
  {| listener :=
       {| listenerPosition := Some {| vx := of_Z 0; vy := of_Z 0; vz := of_Z 0 |};
          listenerOrientation :=
            Some ({| vx := of_Z 0; vy := of_Z 0; vz := of_Z (-1) |},
                  {| vx := of_Z 0; vy := of_Z 1; vz := of_Z 0 |}) |};
     nextHandle := 1;
     pendingFrames := [] |}.

End EngineVocabulary.

(* ================================================================== *)
(** ** The rest of the two classes, and their callers *)
(* ================================================================== *)

(** *** [AudioProcessor.formatTime], on exact numbers *)

Module TimeFormat.

(** The integer part of a number, towards zero. *)
Definition Q_trunc (a : Q) : Z :=
  if Qle_bool 0 a then Qfloor a else (- Qfloor (- a))%Z.

(** [a % b]: [a - b * trunc(a / b)], of the sign of [a]. *)
Definition Q_rem (a b : Q) : Q := a - b * inject_Z (Q_trunc (a / b)).

(** The decimal text of an integer, as a template literal prints it: the
    text of a safe integer, of magnitude below 2^53, which a double holds
    exactly and prints digit by digit.  A larger double prints its shortest
    digits followed by zeros, or an exponent; the properties below stay
    below 2^53. *)
Definition toString (z : Z) : string := NilZero.string_of_int (Z.to_int z).

(** [s.padStart(2, '0')] *)
Definition padStart2 (s : string) : string :=
  match String.length s with
  | O => "00"
  | S O => String "0" s
  | _ => s
  end.

(** [formatTime(seconds)] *)
Definition formatTime (seconds : Q) : string :=
  let minutes := Qfloor (seconds / 60) in
  let remainingSeconds := Qfloor (Q_rem seconds 60) in
  (toString minutes ++ ":" ++ padStart2 (toString remainingSeconds))%string.

(** Two decimal digits. *)
Definition two_digits (n : Z) : string :=
  String (ascii_of_nat (48 + Z.to_nat (n / 10)))
         (String (ascii_of_nat (48 + Z.to_nat (n mod 10))) EmptyString).

End TimeFormat.

(** *** The control panel: component [ControlPanel] *)

Module ControlPanel.
Section WithNumber.
Context {N : Type} `{Number N}.
Local Open Scope js_scope.

(** [handleMultiplierChange(value)]: the value it passes to
    [onAutoMultiplierChange].  Its loop is the loop of
    [getClosestRhythmicMultiplier], over the multipliers the panel holds. *)
Definition handleMultiplierChange
           (analysisResult : option (AudioProcessor.BPMAnalysisResult N))
           (rhythmicMultipliers : list N) (value : N) : N :=
  match analysisResult, rhythmicMultipliers with
  | Some _, first :: _ =>
      let closest := first in
      let minDiff := Math_abs (value - closest) in
      fst (fold_left (AudioProcessor.closest_step value) rhythmicMultipliers
                     (closest, minDiff))
  | _, _ => value
  end.

(** The multiplier [handleAnalyze] leaves after an analysis that gave [bpm]:
    [if (Math.abs(closestMult - autoMultiplier) > 0.01)
       onAutoMultiplierChange(closestMult)]. *)
Definition snapOnAnalyze (autoMultiplier bpm : N) : N :=
  match AudioProcessor.getClosestRhythmicMultiplier autoMultiplier bpm with
  | Some closestMult =>
      if Math_abs (closestMult - autoMultiplier) >? dec 1 100
      then closestMult else autoMultiplier
  | None => autoMultiplier
  end.

End WithNumber.
End ControlPanel.

(** *** The waveform visualizer: component [WaveformVisualizer] *)

Module WaveformVisualizer.
Section WithNumber.
Context {N : Type} `{Number N}.
Local Open Scope js_scope.

(** The height the interval callback computes for the bar [index]; [random]
    is the value of [Math.random()].  [None] is the NaN that a read outside
    the array gives: [undefined / 255].  With [barCount] zero the index is
    [index / 0], an infinity or NaN, and the read is outside the array. *)
Definition barHeight (analyserData : option (list Byte.byte))
           (barCount index : nat) (random : N) : option N :=
  match analyserData with
  | Some data =>
      if (0 <? length data)%nat then
        if (barCount =? 0)%nat then None else
        let dataIndex :=
          to_Z (Math_floor (of_Z (Z.of_nat index) / of_Z (Z.of_nat barCount)
                            * of_Z (Z.of_nat (length data)))) in
        if (dataIndex <? 0)%Z then None else
        match nth_error data (Z.to_nat dataIndex) with
        | Some b =>
            Some (of_Z (Z.of_N (Byte.to_N b)) / of_Z 255 * dec 8 10 + dec 2 10)
        | None => None
        end
      else Some (random * dec 6 10 + dec 2 10)
  | None => Some (random * dec 6 10 + dec 2 10)
  end.

End WithNumber.
End WaveformVisualizer.

(** *** Vocabulary for their properties *)

Section MoreVocabulary.
Context {N : Type} `{Number N}.
Local Open Scope js_scope.

(** The buffer with every sample multiplied by [c]. *)
Definition scaled (c : N) (b : AudioProcessor.AudioBuffer N) : AudioProcessor.AudioBuffer N :=
  {| AudioProcessor.channelData0 := map (fun x => c * x) (AudioProcessor.channelData0 b);
     AudioProcessor.sampleRate := AudioProcessor.sampleRate b |}.

(** The first test of the peak loop: the window [i] is above both its
    neighbours. *)
Definition local_maximum (energy : list N) (i : nat) : bool :=
  (AudioProcessor.at_index energy i >? AudioProcessor.at_index energy (i - 1))
  && (AudioProcessor.at_index energy i >? AudioProcessor.at_index energy (i + 1)).

(** The test of [detectBPM] for the window [i] to be a peak. *)
Definition is_peak (energy : list N) (i : nat) : bool :=
  (AudioProcessor.at_index energy i >? AudioProcessor.at_index energy (i - 1))
  && (AudioProcessor.at_index energy i >? AudioProcessor.at_index energy (i + 1))
  && (AudioProcessor.at_index energy i
      >? AudioProcessor.Math_max_list energy * dec 3 10).

(** The time of the window [i]: [i * hopSize / sampleRate]. *)
Definition peak_time (hopSize sampleRate : Z) (i : nat) : N :=
  of_Z (Z.of_nat i) * of_Z hopSize / of_Z sampleRate.

(** The sum [detectBPM] takes of the intervals. *)
Definition total (l : list N) : N := fold_left (fun a b => a + b) l (of_Z 0).

(** An engine keeps at most one animation frame requested: a running engine
    the one its [animationId] names, a stopped engine none. *)
Definition scheduled (s : EightDProcessor.state N) : Prop :=
  if EightDProcessor.isActive s
  then exists id,
      EightDProcessor.animationId s = Some id
      /\ EightDProcessor.pendingFrames (EightDProcessor.host s) = [id]
  else EightDProcessor.animationId s = None
       /\ EightDProcessor.pendingFrames (EightDProcessor.host s) = [].

(** Every panner is in the horizontal plane. *)
Definition level (s : EightDProcessor.state N) : Prop :=
  Forall (fun p => EightDProcessor.vy (EightDProcessor.position p) = of_Z 0)
         (EightDProcessor.pannerNodes s).

(** Two partial configurations as one: the fields of [later] first. *)
Definition overlay (earlier later : EightDProcessor.PartialConfig N)
  : EightDProcessor.PartialConfig N :=
  {| EightDProcessor.speed_opt :=
       match EightDProcessor.speed_opt later with
       | Some v => Some v
       | None => EightDProcessor.speed_opt earlier
       end;
     EightDProcessor.intensity_opt :=
       match EightDProcessor.intensity_opt later with
       | Some v => Some v
       | None => EightDProcessor.intensity_opt earlier
       end;
     EightDProcessor.radius_opt :=
       match EightDProcessor.radius_opt later with
       | Some v => Some v
       | None => EightDProcessor.radius_opt earlier
       end |}.

(** What holds of an engine between two events. *)
Definition steady (s : EightDProcessor.state N) : Prop :=
  wired s /\ scheduled s /\ level s.

(** A recording of 0.6 s at 8 kHz: a square wave of 10 Hz between full scale
    and near silence, 400 samples at 1 then 400 at 2^-21, six times.  Both
    levels, and three quarters of them, are values a [Float32Array] holds.
    Every window of 800 samples holds 400 samples of each level. *)
Definition square_wave : AudioProcessor.AudioBuffer N :=
  {| AudioProcessor.channelData0 :=
       concat (repeat (repeat (of_Z 1) 400 ++ repeat (of_Z 1 / of_Z 2097152) 400) 6);
     AudioProcessor.sampleRate := 8000 |}.

(** A host on which no frame is requested. *)
Definition idle (h : EightDProcessor.Host N) : Prop :=
  EightDProcessor.pendingFrames h = [].

End MoreVocabulary.

(** Two arrays of numbers, the second [k] times the first, entry by entry. *)
Definition louder (k : Q) (e e' : list Q) : Prop :=
  Forall2 (fun a a' => (a' == k * a)%Q) e e'.

(* ================================================================== *)
(** ** Arithmetic on the exact carrier *)
(* ================================================================== *)

Lemma Q_lt_true (a b : Q) : Q_lt a b = true <-> (a < b)%Q.
Proof.
  unfold Q_lt. rewrite Qlt_alt. destruct (a ?= b)%Q; split; congruence.
Qed.

Lemma Q_lt_false (a b : Q) : Q_lt a b = false <-> (b <= a)%Q.
Proof.
  split; intro E.
  - apply Qnot_lt_le. intro L. apply Q_lt_true in L. congruence.
  - destruct (Q_lt a b) eqn:L; [| reflexivity].
    apply Q_lt_true in L. exfalso. exact (Qlt_not_le _ _ L E).
Qed.

Lemma Q_le_true (a b : Q) : (a <=? b)%js = true <-> (a <= b)%Q.
Proof. apply Qle_bool_iff. Qed.

Lemma Q_distance (v c : Q) : (distance v c == Qabs (v - c))%Q.
Proof.
  unfold distance. cbn [Math_abs num_sub Q_Number].
  now rewrite Qred_correct.
Qed.

Lemma Q_distance_zero (v c : Q) : (v == c)%Q -> (distance v c == 0)%Q.
Proof.
  intro E. rewrite Q_distance, E.
  setoid_replace (c - c)%Q with 0%Q by ring. reflexivity.
Qed.

Lemma Q_distance_zero_inv (v c : Q) : (distance v c <= 0)%Q -> (v == c)%Q.
Proof.
  rewrite Q_distance. intro L.
  apply Qabs_Qle_condition in L. destruct L as [L1 L2]. Lqa.lra.
Qed.

(* ================================================================== *)
(** ** The quantizer's scan *)
(* ================================================================== *)

Section ClosestScan.
Import AudioProcessor.
Local Open Scope Q_scope.

Variable value : Q.

(** The scan keeps the first entry of least distance: after [seen] it holds
    [a], every earlier entry is strictly farther and every later one is at
    least as far. *)
Lemma closest_scan (l : list Q) :
  forall (a : Q) (before after : list Q),
    (forall c, In c before -> distance value a < distance value c) ->
    (forall c, In c after -> distance value a <= distance value c) ->
    exists r p1 p2,
      fold_left (closest_step value) l (a, distance value a) = (r, distance value r)
      /\ (before ++ a :: after) ++ l = p1 ++ r :: p2
      /\ (forall c, In c p1 -> distance value r < distance value c)
      /\ (forall c, In c p2 -> distance value r <= distance value c).
Proof.
  induction l as [| m l IH]; intros a before after Hb Ha.
  - exists a, before, after. rewrite app_nil_r. auto.
  - cbn [fold_left]. unfold closest_step at 2. cbn [snd].
    fold (distance value m).
    change (num_lt (distance value m) (distance value a))
      with (Q_lt (distance value m) (distance value a)).
    destruct (Q_lt (distance value m) (distance value a)) eqn:E.
    + apply Q_lt_true in E.
      destruct (IH m (before ++ a :: after) []) as (r & p1 & p2 & F & S & L1 & L2).
      * intros c Hc. apply in_app_or in Hc. destruct Hc as [Hc | [Hc | Hc]].
        -- eapply Qlt_trans; [exact E | auto].
        -- now subst c.
        -- eapply Qlt_le_trans; [exact E | auto].
      * intros c [].
      * exists r, p1, p2. repeat split; auto.
        rewrite <- S. rewrite <- !app_assoc. reflexivity.
    + apply Q_lt_false in E.
      destruct (IH a before (after ++ [m])) as (r & p1 & p2 & F & S & L1 & L2).
      * exact Hb.
      * intros c Hc. apply in_app_or in Hc. destruct Hc as [Hc | [Hc | []]]; auto.
        now subst c.
      * exists r, p1, p2. repeat split; auto.
        rewrite <- S. rewrite <- !app_assoc. cbn. rewrite <- app_assoc. reflexivity.
Qed.

(** The scan from the first entry, as the method runs it. *)
Lemma closest_scan_from_head (first : Q) (rest : list Q) :
  exists r p1 p2,
    fst (fold_left (closest_step value) (first :: rest) (first, distance value first)) = r
    /\ first :: rest = p1 ++ r :: p2
    /\ (forall c, In c p1 -> distance value r < distance value c)
    /\ (forall c, In c p2 -> distance value r <= distance value c).
Proof.
  cbn [fold_left]. unfold closest_step at 2. cbn [snd].
  fold (distance value first).
  change (num_lt (distance value first) (distance value first))
    with (Q_lt (distance value first) (distance value first)).
  assert (E : Q_lt (distance value first) (distance value first) = false)
    by (apply Q_lt_false, Qle_refl).
  rewrite E.
  destruct (closest_scan rest first [] []) as (r & p1 & p2 & F & S & L1 & L2);
    [intros c [] | intros c [] |].
  exists r, p1, p2. rewrite F. cbn [fst]. auto.
Qed.

End ClosestScan.

Lemma ascending_after (p1 : list Q) :
  forall (r : Q) (p2 : list Q),
    ascending (p1 ++ r :: p2) = true -> forall c, In c p2 -> (r <= c)%Q.
Proof.
  induction p1 as [| a p1 IH]; intros r p2 A c Hc; cbn [ascending app] in A;
    apply andb_prop in A; destruct A as [A1 A2].
  - rewrite forallb_forall in A1. apply Q_le_true. auto.
  - eauto.
Qed.

Lemma strictly_ascending_no_repeat (l : list Q) :
  strictly_ascending l = true ->
  forall a b, In a l -> In b l -> (a == b)%Q -> a = b.
Proof.
  induction l as [| x l IH]; intros S a b Ha Hb E; [destruct Ha |].
  cbn [strictly_ascending] in S. apply andb_prop in S. destruct S as [S1 S2].
  rewrite forallb_forall in S1.
  destruct Ha as [Ha | Ha], Hb as [Hb | Hb]; subst; auto.
  - apply S1, Q_lt_true in Hb. rewrite E in Hb. now apply Qlt_irrefl in Hb.
  - apply S1, Q_lt_true in Ha. rewrite E in Ha. now apply Qlt_irrefl in Ha.
Qed.

(* ================================================================== *)
(** ** The speed mapper on the exact carrier *)
(* ================================================================== *)

Section SpeedMapper.
Import AudioProcessor.
Local Open Scope Q_scope.

Ltac by_cases_lt a b :=
  let E := fresh "E" in
  destruct (Q_lt a b) eqn:E; [apply Q_lt_true in E | apply Q_lt_false in E].

(** [Math.max(0.5, Math.min(5.0, x))] is the clamp of [x] to [0.5, 5]. *)
Lemma max_min_is_clamp (x : Q) :
  Math_max (dec 5 10) (Math_min (of_Z 5) x) == clamp x (dec 5 10) (of_Z 5).
Proof.
  change (dec 5 10 : Q) with (1 # 2). change (of_Z 5 : Q) with (inject_Z 5).
  unfold clamp. cbn [Math_max Math_min num_lt Q_Number].
  by_cases_lt x (inject_Z 5); by_cases_lt x (1 # 2);
    by_cases_lt (inject_Z 5) x; cbn in *;
    try by_cases_lt (1 # 2) x; try by_cases_lt (1 # 2) (inject_Z 5);
    cbn in *; try reflexivity; unfold inject_Z in *; Lqa.lra.
Qed.

Lemma clamp_bounds (x : Q) : 1 # 2 <= clamp x (dec 5 10) (of_Z 5) <= 5.
Proof.
  change (dec 5 10 : Q) with (1 # 2). change (of_Z 5 : Q) with (inject_Z 5).
  unfold clamp. cbn [num_lt Q_Number].
  by_cases_lt x (1 # 2); [| by_cases_lt (inject_Z 5) x]; cbn in *;
    unfold inject_Z in *; Lqa.lra.
Qed.

Lemma to_2_decimals_eq (a : Q) :
  to_2_decimals a == inject_Z (Qfloor (a * 100 + (1 # 2))) / 100.
Proof.
  unfold to_2_decimals. cbn [num_div num_mul Math_round of_Z Q_Number].
  rewrite Qred_correct. unfold Q_round.
  assert (E : Qred (a * inject_Z 100) + (1 # 2) == a * 100 + (1 # 2))
    by (rewrite Qred_correct; reflexivity).
  rewrite (Qfloor_comp _ _ E). reflexivity.
Qed.

Lemma to_2_decimals_comp (a b : Q) : a == b -> to_2_decimals a == to_2_decimals b.
Proof.
  intro E. rewrite !to_2_decimals_eq.
  assert (E' : a * 100 + (1 # 2) == b * 100 + (1 # 2)) by (rewrite E; reflexivity).
  rewrite (Qfloor_comp _ _ E'). reflexivity.
Qed.

(** Rounding to two decimals: a multiple of [1/100], at most [1/200] away. *)
Lemma to_2_decimals_near (a : Q) :
  (exists k : Z, to_2_decimals a == k # 100)
  /\ Qabs (to_2_decimals a - a) <= 1 # 200.
Proof.
  pose proof (to_2_decimals_eq a) as T.
  set (k := Qfloor (a * 100 + (1 # 2))) in *.
  assert (K : inject_Z k / 100 == k # 100).
  { unfold Qdiv, Qmult, Qinv, inject_Z, Qeq. cbn. lia. }
  split; [exists k; rewrite T; exact K |].
  rewrite T.
  pose proof (Qfloor_le (a * 100 + (1 # 2))) as L1.
  pose proof (Qlt_floor (a * 100 + (1 # 2))) as L2.
  fold k in L1, L2. rewrite inject_Z_plus in L2.
  apply Qabs_Qle_condition.
  assert (D : inject_Z k / 100 == inject_Z k * (1 # 100)) by reflexivity.
  rewrite D. change (inject_Z 1) with 1 in L2. split; Lqa.lra.
Qed.

Lemma to_2_decimals_bounds (a : Q) :
  1 # 2 <= a <= 5 -> 1 # 2 <= to_2_decimals a <= 5.
Proof.
  intros [L U]. rewrite to_2_decimals_eq.
  assert (F1 : (50 <= Qfloor (a * 100 + (1 # 2)))%Z).
  { change 50%Z with (Qfloor (inject_Z 50)) at 1. apply Qfloor_resp_le.
    change (inject_Z 50) with 50. Lqa.lra. }
  assert (F2 : (Qfloor (a * 100 + (1 # 2)) <= 500)%Z).
  { change 500%Z with (Qfloor (500 + (1 # 2))). apply Qfloor_resp_le. Lqa.lra. }
  set (k := Qfloor (a * 100 + (1 # 2))) in *.
  assert (D : inject_Z k / 100 == inject_Z k * (1 # 100)) by reflexivity.
  rewrite D.
  assert (I1 : inject_Z 50 <= inject_Z k) by (rewrite <- Zle_Qle; exact F1).
  assert (I2 : inject_Z k <= inject_Z 500) by (rewrite <- Zle_Qle; exact F2).
  change (inject_Z 50) with 50 in I1. change (inject_Z 500) with 500 in I2.
  split; Lqa.lra.
Qed.

Lemma calculateOptimalSpeed_unfold (bpm : Q) :
  calculateOptimalSpeed bpm
  = to_2_decimals (Math_max (dec 5 10) (Math_min (of_Z 5) (bpm / of_Z 60 * dec 25 100)%js)).
Proof. reflexivity. Qed.

Lemma calculateOptimalSpeed_bounds (bpm : Q) :
  1 # 2 <= calculateOptimalSpeed bpm <= 5.
Proof.
  rewrite calculateOptimalSpeed_unfold. apply to_2_decimals_bounds.
  rewrite max_min_is_clamp. apply clamp_bounds.
Qed.

Lemma clamp_comp (x y : Q) :
  x == y -> clamp x (dec 5 10) (of_Z 5) == clamp y (dec 5 10) (of_Z 5).
Proof.
  intro E. change (dec 5 10 : Q) with (1 # 2). change (of_Z 5 : Q) with (inject_Z 5).
  unfold clamp. cbn [num_lt Q_Number].
  by_cases_lt x (1 # 2); by_cases_lt y (1 # 2);
    try by_cases_lt (inject_Z 5) x; try by_cases_lt (inject_Z 5) y;
    cbn in *; try reflexivity; unfold inject_Z in *; Lqa.lra.
Qed.

End SpeedMapper.

(** The integers of an interval, for statements checked value by value. *)
Lemma forall_from_true (P : Z -> bool) (count : nat) :
  forall lo : Z,
    forall_from P count lo = true ->
    forall n : Z, (lo <= n < lo + Z.of_nat count)%Z -> P n = true.
Proof.
  induction count as [| count IH]; intros lo F n R; [lia |].
  cbn [forall_from] in F. apply andb_prop in F. destruct F as [F1 F2].
  destruct (Z.eq_dec n lo) as [-> | D]; [exact F1 |].
  apply (IH (lo + 1)%Z F2). lia.
Qed.

(* ================================================================== *)
(** ** Properties of the speed mapper and of the quantizer *)
(* ================================================================== *)

Section Quantizer.
Import AudioProcessor.

Lemma multipliers_by_guard_Q (bpm : Q) :
  getRhythmicMultipliers bpm
  = if (bpm <=? of_Z 0)%js then guard_multipliers else rhythmicRatios.
Proof.
  unfold getRhythmicMultipliers. destruct (bpm <=? of_Z 0)%js; reflexivity.
Qed.

Lemma multipliers_by_guard_F64 (bpm : float) :
  getRhythmicMultipliers bpm
  = if (bpm <=? of_Z 0)%js then guard_multipliers else rhythmicRatios.
Proof.
  unfold getRhythmicMultipliers. destruct (bpm <=? of_Z 0)%js; reflexivity.
Qed.

Lemma multipliers_strictly_ascending (bpm : Q) :
  strictly_ascending (getRhythmicMultipliers bpm) = true.
Proof.
  rewrite multipliers_by_guard_Q. destruct (bpm <=? of_Z 0)%js; reflexivity.
Qed.

Lemma multipliers_ascending (bpm : Q) :
  ascending (getRhythmicMultipliers bpm) = true.
Proof.
  rewrite multipliers_by_guard_Q. destruct (bpm <=? of_Z 0)%js; reflexivity.
Qed.

(** C3, as amended.  Whatever [bpm] is, [getRhythmicMultipliers] returns one
    of two constant sequences, each sorted ascending: above the guard
    [bpm <= 0] the ten ratios 1/4, 1/2, 2/3, 3/4, 1, 4/3, 3/2, 2, 5/2, 3,
    whose values to three decimal places are the members of
    {0.25, 0.5, 0.667, 0.75, 1, 1.333, 1.5, 2, 2.5, 3}; under the guard the
    seven values 0.25, 0.5, 0.75, 1, 1.25, 1.5, 2.  This holds of the exact
    values and of the binary64 ones. *)
Theorem getRhythmicMultipliers_two_sequences :
  (forall bpm : Q,
      getRhythmicMultipliers bpm
      = (if (bpm <=? of_Z 0)%js
         then [1 # 4; 1 # 2; 3 # 4; 1; 5 # 4; 3 # 2; 2]
         else [1 # 4; 1 # 2; 2 # 3; 3 # 4; 1; 4 # 3; 3 # 2; 2; 5 # 2; 3])%Q
      /\ ascending (getRhythmicMultipliers bpm) = true
      /\ ((bpm <=? of_Z 0)%js = false ->
          forallb (fun m => mem (to_3_decimals m) spec_candidate_set)
                  (getRhythmicMultipliers bpm) = true))
  /\ (forall bpm : float,
         getRhythmicMultipliers bpm
         = (if (bpm <=? of_Z 0)%js then guard_multipliers else rhythmicRatios)
         /\ ascending (getRhythmicMultipliers bpm) = true
         /\ ((bpm <=? of_Z 0)%js = false ->
             forallb (fun m => mem (to_3_decimals m) spec_candidate_set)
                     (getRhythmicMultipliers bpm) = true)).
Proof.
  split; intro bpm.
  - rewrite multipliers_by_guard_Q.
    destruct (bpm <=? of_Z 0)%js; repeat split; try reflexivity; discriminate.
  - rewrite multipliers_by_guard_F64.
    destruct (bpm <=? of_Z 0)%js; repeat split; try reflexivity; discriminate.
Qed.

Lemma getRhythmicMultipliers_two_sequences_witness :
  getRhythmicMultipliers (of_Z 120 : Q)
  = [1 # 4; 1 # 2; 2 # 3; 3 # 4; 1; 4 # 3; 3 # 2; 2; 5 # 2; 3]%Q
  /\ forallb (fun m => mem (to_3_decimals m) spec_candidate_set)
             (getRhythmicMultipliers (of_Z 120 : Q)) = true.
Proof.
  destruct (proj1 getRhythmicMultipliers_two_sequences (of_Z 120)) as (E & _ & S).
  split; [exact E | apply S; reflexivity].
Defined.

(** C3, as stated, fails under the guard: for [bpm = 0] the result contains
    1.25, which is not in the set of the specification, and it is not the
    sequence returned for [bpm = 120]. *)
Lemma getRhythmicMultipliers_guard_counterexample :
  mem (dec 125 100) (getRhythmicMultipliers (of_Z 0 : Q)) = true
  /\ mem (dec 125 100 : Q) spec_candidate_set = false
  /\ getRhythmicMultipliers (of_Z 0 : Q) <> getRhythmicMultipliers (of_Z 120 : Q)
  /\ mem (dec 125 100) (getRhythmicMultipliers (of_Z 0 : float)) = true
  /\ mem (dec 125 100 : float) spec_candidate_set = false.
Proof.
  repeat split; try reflexivity. discriminate.
Qed.

(** The members 2/3 and 4/3 are not the decimals 0.667 and 1.333 themselves. *)
Lemma two_thirds_is_not_a_decimal_of_the_set :
  mem (of_Z 2 / of_Z 3)%js (spec_candidate_set (N := Q)) = false
  /\ mem (of_Z 2 / of_Z 3)%js (spec_candidate_set (N := float)) = false.
Proof. split; reflexivity. Qed.

(** C6.  [getClosestRhythmicMultiplier] returns a member of the candidate
    sequence at least distance from [currentValue]; among the members at that
    distance it returns the lowest; a value that is a candidate is returned
    itself; and 0.26 is snapped to 0.25, for every [bpm].  The last two are
    also what the binary64 computation gives. *)
Theorem getClosestRhythmicMultiplier_nearest :
  (forall value bpm : Q,
      exists r : Q,
        getClosestRhythmicMultiplier value bpm = Some r
        /\ In r (getRhythmicMultipliers bpm)
        /\ forall c : Q,
            In c (getRhythmicMultipliers bpm) ->
            (distance value r <= distance value c)%Q
            /\ ((distance value c == distance value r)%Q -> (r <= c)%Q)
            /\ ((value == c)%Q -> r = c))
  /\ (forall bpm : Q,
         getClosestRhythmicMultiplier (dec 26 100) bpm = Some (dec 25 100))
  /\ (forall bpm : float,
         getClosestRhythmicMultiplier (dec 26 100) bpm = Some (dec 25 100)
         /\ forallb (fun c => match getClosestRhythmicMultiplier c bpm with
                              | Some r => num_eq r c
                              | None => false
                              end) (getRhythmicMultipliers bpm) = true).
Proof.
  split; [| split].
  - intros value bpm.
    pose proof (multipliers_strictly_ascending bpm) as SA.
    pose proof (multipliers_ascending bpm) as A.
    unfold getClosestRhythmicMultiplier.
    destruct (getRhythmicMultipliers bpm) as [| first rest] eqn:L.
    + rewrite multipliers_by_guard_Q in L.
      destruct (bpm <=? of_Z 0)%js; discriminate L.
    + destruct (closest_scan_from_head value first rest)
        as (r & p1 & p2 & F & S & L1 & L2).
      exists r. fold (distance value first). rewrite F.
      assert (Ir : In r (first :: rest))
        by (rewrite S; apply in_or_app; right; left; reflexivity).
      split; [reflexivity | split; [exact Ir |]].
      intros c Hc.
      assert (D : (distance value r <= distance value c)%Q).
      { rewrite S in Hc. apply in_app_or in Hc. destruct Hc as [Hc | [Hc | Hc]].
        - apply Qlt_le_weak. auto.
        - subst c. apply Qle_refl.
        - auto. }
      split; [exact D | split].
      * intro T. 
        assert (Hc' := Hc). rewrite S in Hc'. apply in_app_or in Hc'.
        destruct Hc' as [Hc' | [Hc' | Hc']].
        -- apply L1 in Hc'. rewrite T in Hc'. now apply Qlt_irrefl in Hc'.
        -- subst c. apply Qle_refl.
        -- rewrite S in A. eapply ascending_after; eauto.
      * intro E.
        apply (strictly_ascending_no_repeat _ SA); auto.
        pose proof (Q_distance_zero E) as E0.
        assert (Z : (value == r)%Q)
          by (apply Q_distance_zero_inv; rewrite <- E0; exact D).
        rewrite <- Z. exact E.
  - intro bpm. unfold getClosestRhythmicMultiplier.
    rewrite multipliers_by_guard_Q. destruct (bpm <=? of_Z 0)%js; reflexivity.
  - intro bpm. unfold getClosestRhythmicMultiplier.
    rewrite multipliers_by_guard_F64. destruct (bpm <=? of_Z 0)%js; split; reflexivity.
Qed.

Lemma getClosestRhythmicMultiplier_nearest_witness :
  exists r : Q,
    getClosestRhythmicMultiplier (3 # 4) (of_Z 120) = Some r
    /\ (distance (3 # 4) r <= distance (3 # 4) (2 # 3))%Q
    /\ r = (3 # 4)%Q.
Proof.
  destruct (proj1 getClosestRhythmicMultiplier_nearest (3 # 4)%Q (of_Z 120))
    as (r & E & _ & C).
  exists r. split; [exact E |]. split.
  - apply (C (2 # 3)%Q). vm_compute. tauto.
  - apply (C (3 # 4)%Q); [vm_compute; tauto | reflexivity].
Defined.

(** The binary64 computation, for each integer [bpm] from 60 to 200. *)
Lemma calculateOptimalSpeed_F64_checked :
  forall_from (fun n : Z =>
                 let speed : float := calculateOptimalSpeed (of_Z n) in
                 (dec 5 10 <=? speed)%js && (speed <=? of_Z 5)%js
                 && num_eq speed (mapSpeed (of_Z n)))
              141 60 = true.
Proof. vm_compute. reflexivity. Qed.

(** C7.  [calculateOptimalSpeed] is the mapper of the specification: with
    [beatFreq = bpm/60] it returns [clamp(beatFreq * 0.25, 0.5, 5.0)] rounded
    to two decimal places (a multiple of 0.01 at most 0.005 away), and for
    [bpm] in [60, 200] the result lies in [0.5, 5.0]; for an integer [bpm] of
    that range the binary64 computation agrees with the mapper and lies in
    [0.5, 5.0] as well. *)
Theorem calculateOptimalSpeed_is_mapSpeed :
  forall bpm : Q,
    (calculateOptimalSpeed bpm == mapSpeed bpm)%Q
    /\ (exists k : Z, calculateOptimalSpeed bpm == k # 100)%Q
    /\ (Qabs (calculateOptimalSpeed bpm
              - clamp (bpm / 60 * (1 # 4))%Q (dec 5 10) (of_Z 5)) <= 1 # 200)%Q
    /\ ((60 <= bpm <= 200)%Q ->
        (1 # 2 <= calculateOptimalSpeed bpm <= 5)%Q
        /\ forall n : Z,
            (bpm == inject_Z n)%Q ->
            let speed := calculateOptimalSpeed (of_Z n : float) in
            (dec 5 10 <=? speed)%js = true
            /\ (speed <=? of_Z 5)%js = true
            /\ num_eq speed (mapSpeed (of_Z n)) = true).
Proof.
  intro bpm.
  assert (X : ((bpm / of_Z 60 * dec 25 100)%js == bpm / 60 * (1 # 4))%Q).
  { cbn [num_div num_mul Q_Number of_Z]. rewrite !Qred_correct. reflexivity. }
  split; [| split; [| split]].
  - rewrite calculateOptimalSpeed_unfold. unfold mapSpeed.
    apply to_2_decimals_comp, max_min_is_clamp.
  - rewrite calculateOptimalSpeed_unfold. apply to_2_decimals_near.
  - rewrite calculateOptimalSpeed_unfold.
    rewrite <- (clamp_comp X), <- max_min_is_clamp. apply to_2_decimals_near.
  - intros [L U]. split; [apply calculateOptimalSpeed_bounds |].
    intros n E.
    assert (R : (60 <= n < 60 + Z.of_nat 141)%Z).
    { rewrite E in L, U. change 60%Q with (inject_Z 60) in L.
      change 200%Q with (inject_Z 200) in U.
      rewrite <- Zle_Qle in L, U. lia. }
    pose proof (@forall_from_true _ _ _ calculateOptimalSpeed_F64_checked n R) as B.
    cbv beta zeta in B. apply andb_prop in B. destruct B as [B B3].
    apply andb_prop in B. destruct B as [B1 B2]. cbv zeta. auto.
Qed.

Lemma calculateOptimalSpeed_is_mapSpeed_witness :
  (1 # 2 <= calculateOptimalSpeed (120 : Q) <= 5)%Q
  /\ (dec 5 10 <=? calculateOptimalSpeed (of_Z 120 : float))%js = true.
Proof.
  destruct (calculateOptimalSpeed_is_mapSpeed 120) as (_ & _ & _ & R).
  destruct R as [B F]; [split; discriminate |].
  split; [exact B | apply (F 120%Z); reflexivity].
Defined.

End Quantizer.

(* ================================================================== *)
(** ** The tempo analysis *)
(* ================================================================== *)

Section Analysis.
Import AudioProcessor.
Context {N : Type} `{Number N}.
Variable maxArguments : Z.
Local Open Scope js_scope.

Local Abbreviation detectBPM := (detectBPM maxArguments).
Local Abbreviation analyzeFile := (analyzeFile maxArguments).

Lemma positive_hopb_true (rate : Z) : positive_hopb rate = true -> positive_hop rate.
Proof.
  unfold positive_hopb, positive_hop. cbv zeta. intro B.
  apply andb_prop in B. destruct B as [B1 B2]. lia.
Qed.

(** With a positive hop the outer loop ends within the fuel it is given,
    and every entry of the result is an energy of a window. *)
Lemma energyLoop_terminates (P : N -> Prop) (channelData : list N)
      (windowSize hopSize : Z) :
  (1 <= hopSize)%Z ->
  (forall i, P (windowSum channelData i windowSize / of_Z windowSize)) ->
  forall (fuel : nat) (i : Z),
    (Z.of_nat (length channelData) - windowSize - i < Z.of_nat fuel)%Z ->
    exists energy,
      energyLoop channelData windowSize hopSize fuel i = Some energy
      /\ Forall P energy.
Proof.
  intros Hop HP. induction fuel as [| fuel IH]; intros i Hi; cbn [energyLoop].
  - destruct (Z.ltb_spec i (Z.of_nat (length channelData) - windowSize)); [lia |].
    exists []. split; [reflexivity | constructor].
  - destruct (Z.ltb_spec i (Z.of_nat (length channelData) - windowSize)).
    + destruct (IH (i + hopSize)%Z) as (energy & E & F); [lia |].
      rewrite E. cbn [option_map]. eexists. split; [reflexivity |].
      constructor; auto.
    + exists []. split; [reflexivity | constructor].
Qed.

(** The number of windows: with [k] hops covering what is left of the buffer
    after a window, the outer loop makes at most [k] windows. *)
Lemma energyLoop_length (channelData : list N) (windowSize hopSize : Z) :
  (1 <= hopSize)%Z ->
  forall (fuel : nat) (i : Z) (energy : list N) (k : nat),
    energyLoop channelData windowSize hopSize fuel i = Some energy ->
    (Z.of_nat (length channelData) - windowSize - i <= Z.of_nat k * hopSize)%Z ->
    (length energy <= k)%nat.
Proof.
  intros Hop. induction fuel as [| fuel IH]; intros i energy k E B;
    cbn [energyLoop] in E;
    destruct (Z.ltb_spec i (Z.of_nat (length channelData) - windowSize));
    try discriminate; try (injection E as <-; cbn; lia).
  destruct (energyLoop channelData windowSize hopSize fuel (i + hopSize)) as [rest |]
    eqn:R; [| discriminate].
  injection E as <-. destruct k as [| k]; [lia |].
  cbn [length]. apply le_n_S. apply (IH _ _ _ R). lia.
Qed.

(** With a hop of zero or less a loop that is entered never ends: no fuel is
    enough. *)
Lemma energyLoop_never_ends (channelData : list N) (windowSize hopSize : Z) :
  (hopSize <= 0)%Z ->
  forall (fuel : nat) (i : Z),
    (i < Z.of_nat (length channelData) - windowSize)%Z ->
    energyLoop channelData windowSize hopSize fuel i = None.
Proof.
  intros Hop. induction fuel as [| fuel IH]; intros i L; cbn [energyLoop];
    destruct (Z.ltb_spec i (Z.of_nat (length channelData) - windowSize)); try lia.
  - reflexivity.
  - rewrite IH by lia. reflexivity.
Qed.

(** The fuel [detectBPM] gives the loop is spent in that case only. *)
Lemma energyLoop_spent (channelData : list N) (windowSize hopSize : Z) :
  energyLoop channelData windowSize hopSize
             (S (Z.to_nat (Z.of_nat (length channelData) - windowSize))) 0 = None
  <-> (hopSize <= 0 /\ 0 < Z.of_nat (length channelData) - windowSize)%Z.
Proof.
  split.
  - intro E. destruct (Z.le_gt_cases hopSize 0) as [L | G].
    + split; [exact L |].
      destruct (Z.lt_ge_cases 0 (Z.of_nat (length channelData) - windowSize));
        [assumption | exfalso].
      cbn [energyLoop] in E.
      destruct (Z.ltb_spec 0 (Z.of_nat (length channelData) - windowSize));
        [lia | discriminate].
    + exfalso.
      destruct (@energyLoop_terminates (fun _ => True) channelData windowSize
                  hopSize ltac:(lia) (fun _ => I)
                  (S (Z.to_nat (Z.of_nat (length channelData) - windowSize))) 0%Z)
        as (energy & E' & _); [lia | congruence].
  - intros [L P]. apply energyLoop_never_ends; lia.
Qed.

(** The peak loop throws when the array has more entries than a call takes
    arguments and one of them is a local maximum; otherwise it keeps the
    times of the windows that pass its test. *)
Lemma peakLoop_spec (energy : list N) (hopSize rate : Z) (indices : list nat) :
  peakLoop maxArguments energy hopSize rate indices
  = if (maxArguments <? Z.of_nat (length energy))%Z
       && existsb (local_maximum energy) indices
    then None
    else Some (map (peak_time hopSize rate) (filter (is_peak energy) indices)).
Proof.
  unfold local_maximum, is_peak, Math_max_spread.
  induction indices as [| i rest IH]; cbn [peakLoop existsb filter map].
  - rewrite andb_false_r. reflexivity.
  - rewrite IH. unfold Math_max_spread.
    destruct ((at_index energy i >? at_index energy (i - 1))
              && (at_index energy i >? at_index energy (i + 1))); cbn [orb andb].
    + destruct (maxArguments <? Z.of_nat (length energy))%Z; cbn [andb];
        [reflexivity |].
      destruct (at_index energy i >? Math_max_list energy * dec 3 10);
        reflexivity.
    + destruct ((maxArguments <? Z.of_nat (length energy))%Z
                && existsb (fun i0 => (at_index energy i0 >? at_index energy (i0 - 1))
                                      && (at_index energy i0 >? at_index energy (i0 + 1)))
                           rest); reflexivity.
Qed.

Lemma findPeaks_spec (energy : list N) (hopSize rate : Z) :
  findPeaks maxArguments energy hopSize rate
  = if (maxArguments <? Z.of_nat (length energy))%Z
       && existsb (local_maximum energy) (seq 1 (length energy - 2))
    then None
    else Some (map (peak_time hopSize rate)
                   (filter (is_peak energy) (seq 1 (length energy - 2)))).
Proof. apply peakLoop_spec. Qed.

(** [detectBPM] returns, or throws one of its two RangeErrors: it has no
    other end. *)
Lemma detectBPM_ends (this : state N) :
  (exists bpm, detectBPM this = Normal bpm this)
  \/ (exists e,
         (e = "RangeError: Invalid array length"%string
          \/ e = "RangeError: Maximum call stack size exceeded"%string)
         /\ detectBPM this = Throw e this).
Proof.
  unfold detectBPM.
  destruct (audioBuffer this) as [buf |]; [| eauto].
  destruct (audioContext this) as [ctx |]; [| eauto].
  destruct (energyLoop _ _ _ _ _) as [energy |]; [| eauto].
  destruct (findPeaks _ _ _ _) as [peaks |]; [| eauto 6].
  match goal with |- context [if ?b then _ else _] => destruct b end; eauto.
Qed.

(** [detectBPM] returns whenever the hop is positive and the buffer has no
    more samples than a call takes arguments. *)
Lemma detectBPM_returns (this : state N) :
  (forall buf, audioBuffer this = Some buf ->
               positive_hop (sampleRate buf)
               /\ (Z.of_nat (length (channelData0 buf)) <= maxArguments)%Z) ->
  exists bpm, detectBPM this = Normal bpm this.
Proof.
  intro Hop. unfold detectBPM.
  destruct (audioBuffer this) as [buf |]; [| eauto].
  destruct (audioContext this) as [ctx |]; [| eauto].
  destruct (Hop buf eq_refl) as [[W Hp] Len].
  destruct (energyLoop _ _ _ _ _) as [energy |] eqn:E.
  - assert (Short : (length energy
                     <= Z.to_nat (Z.of_nat (length (channelData0 buf))
                                  - windowSizeOf (sampleRate buf)))%nat).
    { eapply energyLoop_length; [exact Hp | exact E |].
      destruct (Z.le_gt_cases 0 (Z.of_nat (length (channelData0 buf))
                                 - windowSizeOf (sampleRate buf)));
        [rewrite Z2Nat.id by assumption; nia | lia]. }
    rewrite findPeaks_spec.
    destruct (Z.ltb_spec maxArguments (Z.of_nat (length energy))); [lia |].
    cbn [andb].
    match goal with |- context [if ?b then _ else _] => destruct b end; eauto.
  - apply energyLoop_spent in E. lia.
Qed.

(** The ways [analyzeFile] ends. *)
Lemma analyzeFile_without_context (this : state N) (file : File) :
  audioContext this = None ->
  analyzeFile file this = Throw "Audio context not initialized" this.
Proof. intro E. unfold analyzeFile. rewrite E. reflexivity. Qed.

Lemma analyzeFile_undecodable (this : state N) (file : File) (ctx : AudioContext N) :
  audioContext this = Some ctx ->
  decoded this file = None ->
  analyzeFile file this = Normal fallback this.
Proof.
  intros E D. unfold decoded in D. rewrite E in D.
  unfold analyzeFile. rewrite E.
  unfold try_catch, bind, await, throw, ret.
  destruct (arrayBuffer file) as [bytes |]; [| reflexivity].
  rewrite D. reflexivity.
Qed.

Lemma analyzeFile_decoded (this : state N) (file : File) (buf : AudioBuffer N) :
  decoded this file = Some buf ->
  forall bpm,
    detectBPM (holding this buf) = Normal bpm (holding this buf) ->
    analyzeFile file this
    = Normal {| bpm := bpm; confidence := dec 85 100;
                optimalSpeed := calculateOptimalSpeed bpm |}
             (holding this buf).
Proof.
  intros D bpm B. unfold decoded in D. unfold analyzeFile.
  destruct (audioContext this) as [ctx |] eqn:E; [| discriminate].
  destruct (arrayBuffer file) as [bytes |]; [| discriminate].
  unfold try_catch, bind, await, throw, ret, set_audioBuffer.
  rewrite D. fold (holding this buf). rewrite B. reflexivity.
Qed.

(** An error of [detectBPM] is caught: the call resolves to the fallback,
    the decoded buffer kept. *)
Lemma analyzeFile_caught (this : state N) (file : File) (buf : AudioBuffer N) :
  decoded this file = Some buf ->
  forall e,
    detectBPM (holding this buf) = Throw e (holding this buf) ->
    analyzeFile file this = Normal fallback (holding this buf).
Proof.
  intros D e B. unfold decoded in D. unfold analyzeFile.
  destruct (audioContext this) as [ctx |] eqn:E; [| discriminate].
  destruct (arrayBuffer file) as [bytes |]; [| discriminate].
  unfold try_catch, bind, await, throw, ret, set_audioBuffer.
  rewrite D. fold (holding this buf). rewrite B. reflexivity.
Qed.

(** *** Silence *)

Hypothesis lt_irreflexive : forall a : N, (a <? a) = false.

Lemma at_index_constant (e : N) (l : list N) :
  Forall (eq e) l -> forall j, (j < length l)%nat -> at_index l j = e.
Proof.
  unfold at_index. induction 1 as [| x l X F IH]; intros [| j] L; cbn in *;
    try lia; auto. apply IH. lia.
Qed.

Lemma findPeaks_flat (e : N) (energy : list N) (hopSize rate : Z) :
  Forall (eq e) energy -> findPeaks maxArguments energy hopSize rate = Some [].
Proof.
  intro F. unfold findPeaks.
  assert (G : forall i, In i (seq 1 (length energy - 2)) ->
                        (at_index energy i >? at_index energy (i - 1)) = false).
  { intros i Hi. apply in_seq in Hi.
    rewrite !(at_index_constant F) by lia. apply lt_irreflexive. }
  induction (seq 1 (length energy - 2)) as [| i l IH]; [reflexivity |].
  cbn [peakLoop]. rewrite G by (left; reflexivity). cbn [andb].
  apply IH. intros j Hj. apply G. right. exact Hj.
Qed.

Lemma windowSum_silence (n : nat) (windowSize : Z) (i j : Z) :
  windowSum (repeat (of_Z 0) n) i windowSize
  = windowSum (repeat (of_Z 0) n) j windowSize.
Proof.
  unfold windowSum.
  assert (Z0 : forall k, at_index (repeat (of_Z 0) n) k = of_Z 0).
  { intro k. unfold at_index. revert k.
    induction n as [| n IH]; intros [| k]; cbn; auto. }
  generalize (of_Z 0) at 3 6 as sum. generalize (Z.to_nat i) (Z.to_nat j).
  induction (Z.to_nat windowSize) as [| w IH]; intros a b sum; [reflexivity |].
  cbn [seq fold_left]. rewrite !Z0. apply IH.
Qed.

(** A silent buffer has no peaks: [detectBPM] returns its default. *)
Lemma detectBPM_silence (this : state N) (n : nat) (rate : Z) :
  audioContext this <> None ->
  audioBuffer this = Some (silence n rate) ->
  positive_hop rate ->
  detectBPM this = Normal (of_Z 120) this.
Proof.
  intros C B [W Hp]. unfold detectBPM. rewrite B.
  destruct (audioContext this) as [ctx |]; [| congruence].
  cbn [channelData0 sampleRate silence].
  set (w := windowSizeOf rate) in *.
  set (e := windowSum (repeat (of_Z 0) n) 0 w / of_Z w).
  assert (P : forall i, e = windowSum (repeat (of_Z 0) n) i w / of_Z w)
    by (intro i; unfold e; now rewrite (windowSum_silence n w i 0)).
  destruct (@energyLoop_terminates (eq e) (repeat (of_Z 0) n) w _ Hp P
              (S (Z.to_nat (Z.of_nat (length (repeat (of_Z 0) n)) - w))) 0%Z)
    as (energy & E & F); [lia |].
  rewrite E, (findPeaks_flat _ _ F). reflexivity.
Qed.

Lemma analyzeFile_silence_generic (this : state N) (file : File) (n : nat) (rate : Z) :
  decoded this file = Some (silence n rate) ->
  positive_hop rate ->
  analyzeFile file this
  = Normal {| bpm := of_Z 120; confidence := dec 85 100;
              optimalSpeed := calculateOptimalSpeed (of_Z 120) |}
           (holding this (silence n rate)).
Proof.
  intros D Hp. apply analyzeFile_decoded; [exact D |].
  apply detectBPM_silence with (n := n) (rate := rate); auto.
  unfold decoded in D. unfold holding. cbn.
  destruct (audioContext this); congruence.
Qed.

End Analysis.



(** *** The two executable carriers *)

Lemma Q_lt_irreflexive (a : Q) : (a <? a)%js = false.
Proof. apply Q_lt_false, Qle_refl. Qed.

Lemma F64_lt_irreflexive (a : float) : (a <? a)%js = false.
Proof.
  cbn [num_lt F64_Number]. rewrite ltb_spec. unfold SFltb, SFcompare.
  destruct (Prim2SF a) as [s | s | | s m e]; try destruct s; try reflexivity;
    rewrite Z.compare_refl, Pos.compare_cont_refl; reflexivity.
Qed.

Lemma windowSizeOf_Q (rate : Z) : AudioProcessor.windowSizeOf (N := Q) rate = (rate / 10)%Z.
Proof.
  unfold AudioProcessor.windowSizeOf.
  cbn [to_Z Math_floor num_mul of_Z Q_Number]. unfold Q_floor.
  rewrite Qfloor_Z, (Qfloor_comp _ _ (Qred_correct _)).
  change (dec 1 10 : Q) with (1 # 10)%Q.
  unfold Qfloor, Qmult, inject_Z. cbn [Qnum Qden].
  rewrite Z.mul_1_r. reflexivity.
Qed.

Lemma hopSizeOf_Q (windowSize : Z) :
  AudioProcessor.hopSizeOf (N := Q) windowSize = (windowSize / 2)%Z.
Proof.
  unfold AudioProcessor.hopSizeOf.
  cbn [to_Z Math_floor num_div of_Z Q_Number]. unfold Q_floor.
  rewrite Qfloor_Z, (Qfloor_comp _ _ (Qred_correct _)).
  unfold Qfloor, Qdiv, Qmult, Qinv, inject_Z. cbn [Qnum Qden].
  rewrite Z.mul_1_r. reflexivity.
Qed.

(** On the exact carrier the hop is positive from 20 Hz on, and only then. *)
Lemma positive_hop_Q (rate : Z) : positive_hop (N := Q) rate <-> (20 <= rate)%Z.
Proof.
  unfold positive_hop. rewrite hopSizeOf_Q, windowSizeOf_Q. split.
  - intros [_ Hp].
    destruct (Z.le_gt_cases 20 rate) as [L | G]; [exact L | exfalso].
    assert (rate / 10 <= 1)%Z by (apply Z.lt_succ_r, Z.div_lt_upper_bound; lia).
    assert (rate / 10 / 2 < 1)%Z by (apply Z.div_lt_upper_bound; lia).
    lia.
  - intro L.
    assert (2 <= rate / 10)%Z by (apply Z.div_le_lower_bound; lia).
    split; [lia | apply Z.div_le_lower_bound; lia].
Qed.

(** On binary64, checked for each sample rate up to 100 kHz. *)
Lemma positive_hop_F64_checked :
  forall_from (fun rate => positive_hopb (N := float) rate) (Z.to_nat 99980) 20 = true.
Proof. vm_cast_no_check (eq_refl true). Qed.

Lemma positive_hop_F64 (rate : Z) :
  (20 <= rate < 100000)%Z -> positive_hop (N := float) rate.
Proof.
  intro R. apply positive_hopb_true.
  apply (@forall_from_true _ _ _ positive_hop_F64_checked rate). 
  rewrite Z2Nat.id; lia.
Qed.

(* ================================================================== *)
(** ** Properties of the tempo analysis *)
(* ================================================================== *)

Section TempoClaims.
Import AudioProcessor.

(** C1, as amended.  A silent buffer that the platform decodes is analysed
    without error: no energy window is a peak, [detectBPM] returns its default
    120, and [analyzeFile] resolves to [{bpm: 120, confidence: 0.85,
    optimalSpeed: 0.5}], the speed being [calculateOptimalSpeed(120)].  This
    holds for every length of the buffer, on the exact carrier for every sample
    rate from 20 Hz and on binary64 for every sample rate from 20 Hz to
    100 kHz, and whatever number of arguments the engine accepts in a call:
    on silence [Math.max] is not called. *)
Theorem analyzeFile_silence (maxArguments : Z) :
  (forall (this : state Q) (file : File) (n : nat) (rate : Z),
      decoded this file = Some (silence n rate) ->
      (20 <= rate)%Z ->
      analyzeFile maxArguments file this
      = Normal {| bpm := 120; confidence := 17 # 20; optimalSpeed := 1 # 2 |}%Q
               (holding this (silence n rate)))
  /\ (forall (this : state float) (file : File) (n : nat) (rate : Z),
         decoded this file = Some (silence n rate) ->
         (20 <= rate < 100000)%Z ->
         analyzeFile maxArguments file this
         = Normal {| bpm := of_Z 120; confidence := dec 85 100; optimalSpeed := dec 5 10 |}
                  (holding this (silence n rate))).
Proof.
  split; intros this file n rate D R.
  - apply (@analyzeFile_silence_generic _ _ maxArguments Q_lt_irreflexive _ _ _ _ D).
    apply positive_hop_Q, R.
  - apply (@analyzeFile_silence_generic _ _ maxArguments F64_lt_irreflexive _ _ _ _ D).
    apply positive_hop_F64, R.
Qed.

Lemma analyzeFile_silence_witness :
  analyzeFile 125000 readable_file
              (constructor (Some (decodes_to half_second_of_silence)))
  = Normal {| bpm := 120; confidence := 17 # 20; optimalSpeed := 1 # 2 |}%Q
           (holding (constructor (Some (decodes_to half_second_of_silence)))
                    half_second_of_silence).
Proof.
  apply (proj1 (analyzeFile_silence 125000)); [reflexivity | lia].
Defined.

(** C1, as stated, fails: half a second of silence at 8 kHz is analysed to
    confidence 0.85 and speed 0.5, which is not the fallback
    [{bpm: 120, confidence: 0.5, optimalSpeed: 2.0}]; on both carriers. *)
Lemma analyzeFile_silence_counterexample :
  returned (analyzeFile 125000 readable_file
              (constructor (Some (decodes_to (N := Q) half_second_of_silence))))
  = Some {| bpm := 120; confidence := 17 # 20; optimalSpeed := 1 # 2 |}%Q
  /\ {| bpm := 120; confidence := 17 # 20; optimalSpeed := 1 # 2 |}%Q <> fallback
  /\ match returned (analyzeFile 125000 readable_file
                       (constructor (Some (decodes_to (N := float) half_second_of_silence))))
     with
     | Some r =>
         num_eq (bpm r) (bpm fallback) = true
         /\ num_eq (confidence r) (confidence fallback) = false
         /\ num_eq (optimalSpeed r) (optimalSpeed fallback) = false
     | None => False
     end.
Proof.
  split; [| split].
  - vm_compute. reflexivity.
  - discriminate.
  - vm_compute. auto.
Qed.

(** C2, as amended.  A processor whose audio context could not be created
    rejects every call of [analyzeFile] with "Audio context not initialized".
    A processor with a context never rejects, whatever the file is.  If the
    file cannot be read or decoded the call resolves to the fallback.  If it
    is decoded, [detectBPM] either returns a [bpm], and the call resolves to
    [{bpm, confidence: 0.85, optimalSpeed: calculateOptimalSpeed(bpm)}], or
    throws, and the call resolves to the fallback, the error caught.  It
    returns whenever the hop is positive (a sample rate of 20 Hz or more) and
    the buffer has no more samples than the engine accepts arguments in a
    call; a longer recording can make [Math.max(...energy)] throw. *)
Theorem analyzeFile_outcome {N : Type} `{Number N} (maxArguments : Z)
        (this : state N) (file : File) :
  match audioContext this with
  | None =>
      analyzeFile maxArguments file this
      = Throw "Audio context not initialized" this
  | Some _ =>
      match decoded this file with
      | None => analyzeFile maxArguments file this = Normal fallback this
      | Some buf =>
          ((exists b : N,
               detectBPM maxArguments (holding this buf)
               = Normal b (holding this buf)
               /\ analyzeFile maxArguments file this
                  = Normal {| bpm := b; confidence := dec 85 100;
                              optimalSpeed := calculateOptimalSpeed b |}
                           (holding this buf))
           \/ (exists e : string,
                  (e = "RangeError: Invalid array length"%string
                   \/ e = "RangeError: Maximum call stack size exceeded"%string)
                  /\ detectBPM maxArguments (holding this buf)
                     = Throw e (holding this buf)
                  /\ analyzeFile maxArguments file this
                     = Normal fallback (holding this buf)))
          /\ (positive_hop (sampleRate buf) ->
              (Z.of_nat (length (channelData0 buf)) <= maxArguments)%Z ->
              exists b : N,
                detectBPM maxArguments (holding this buf)
                = Normal b (holding this buf)
                /\ analyzeFile maxArguments file this
                   = Normal {| bpm := b; confidence := dec 85 100;
                               optimalSpeed := calculateOptimalSpeed b |}
                            (holding this buf))
      end
  end.
Proof.
  destruct (audioContext this) as [ctx |] eqn:C;
    [| now apply analyzeFile_without_context].
  destruct (decoded this file) as [buf |] eqn:D;
    [| now apply analyzeFile_undecodable with (ctx := ctx)].
  split.
  - destruct (detectBPM_ends maxArguments (holding this buf))
      as [(b & B) | (e & K & B)].
    + left. exists b. split; [exact B | now apply analyzeFile_decoded].
    + right. exists e.
      split; [exact K | split; [exact B | now apply analyzeFile_caught with (e := e)]].
  - intros Hop Len.
    destruct (@detectBPM_returns _ _ maxArguments (holding this buf)) as (b & B).
    + intros buf' E. cbn in E. injection E as <-. auto.
    + exists b. split; [exact B | now apply analyzeFile_decoded].
Qed.

(** The theorem at work: half a second of silence is analysed, and a
    recording with a burst whose energy array is longer than a call takes
    arguments (here four) resolves to the fallback. *)
Lemma analyzeFile_outcome_witness :
  (exists b : Q,
      detectBPM 125000 (holding (constructor (Some (decodes_to half_second_of_silence)))
                                half_second_of_silence)
      = Normal b (holding (constructor (Some (decodes_to half_second_of_silence)))
                          half_second_of_silence)
      /\ analyzeFile 125000 readable_file
                     (constructor (Some (decodes_to half_second_of_silence)))
         = Normal {| bpm := b; confidence := dec 85 100;
                     optimalSpeed := calculateOptimalSpeed b |}
                  (holding (constructor (Some (decodes_to half_second_of_silence)))
                           half_second_of_silence))
  /\ analyzeFile 4 readable_file (constructor (Some (decodes_to (N := Q) a_burst)))
     = Normal fallback (holding (constructor (Some (decodes_to a_burst))) a_burst).
Proof.
  split.
  - apply (analyzeFile_outcome 125000
             (constructor (Some (decodes_to (N := Q) half_second_of_silence)))
             readable_file).
    + apply positive_hop_Q. cbn. lia.
    + cbn. lia.
  - destruct (proj1 (analyzeFile_outcome 4
                       (constructor (Some (decodes_to (N := Q) a_burst)))
                       readable_file))
      as [(b & B & _) | (e & _ & _ & A)].
    + vm_compute in B. discriminate B.
    + exact A.
Defined.

(** C2, as stated, fails: when [new AudioContext()] threw in the constructor,
    [analyzeFile] rejects. *)
Lemma analyzeFile_rejection_counterexample :
  analyzeFile 125000 readable_file (constructor (N := Q) None)
  = Throw "Audio context not initialized" (constructor None).
Proof. reflexivity. Qed.

End TempoClaims.

(* ================================================================== *)
(** ** The rotation engine *)
(* ================================================================== *)

Section Engine.
Import EightDProcessor.
Context {N : Type} `{Number N}.
Variables Math_cos Math_sin : N -> N.
Local Open Scope js_scope.

Local Abbreviation animate := (animate Math_cos Math_sin).
Local Abbreviation start := (start Math_cos Math_sin).
Local Abbreviation frame := (frame Math_cos Math_sin).
Local Abbreviation run_callbacks := (run_callbacks Math_cos Math_sin).
Local Abbreviation step := (step Math_cos Math_sin).
Local Abbreviation run := (run Math_cos Math_sin).

Lemma animate_inactive (s : state N) :
  isActive s = false -> animate s = Normal tt s.
Proof. intro A. unfold EightDProcessor.animate. rewrite A. reflexivity. Qed.

(** One tick of a running engine. *)
Lemma animate_active (s : state N) (p : PannerNode N) (rest : list (PannerNode N)) :
  isActive s = true ->
  pannerNodes s = p :: rest ->
  exists s',
    animate s = Normal tt s'
    /\ angle s' = angle s + speed (config s) * dec 5 100
    /\ pannerNodes s'
       = set_position
           {| vx := Math_cos (angle s') * (radius (config s) * intensity (config s));
              vy := of_Z 0;
              vz := Math_sin (angle s') * (radius (config s) * intensity (config s)) |}
           p :: rest
    /\ config s' = config s
    /\ isActive s' = true
    /\ analyserNode s' = analyserNode s
    /\ gainNode s' = gainNode s
    /\ animationId s' = Some (nextHandle (host s))
    /\ pendingFrames (host s') = pendingFrames (host s) ++ [nextHandle (host s)].
Proof.
  intros A P. unfold EightDProcessor.animate. rewrite A. cbn.
  rewrite P. eexists. split; [reflexivity |]. cbn. repeat split; try reflexivity.
  exact A.
Qed.

Lemma animate_wired (s : state N) :
  wired s -> exists s', animate s = Normal tt s' /\ wired s'.
Proof.
  intros [[p P] F]. destruct (isActive s) eqn:A.
  - destruct (animate_active s A P) as (s' & E & _ & P' & _ & _ & An & _).
    exists s'. split; [exact E |]. split; [eauto | now rewrite An].
  - exists s. split; [now apply animate_inactive | split; eauto].
Qed.

Lemma run_callbacks_wired (handles : list nat) :
  forall s, wired s -> exists s', run_callbacks handles s = Normal tt s' /\ wired s'.
Proof.
  induction handles as [| id handles IH]; intros s W; cbn.
  - exists s. split; [reflexivity | exact W].
  - unfold bind. destruct (animate_wired W) as (s1 & E & W1). rewrite E. auto.
Qed.

Lemma stop_wired (s : state N) :
  wired s -> exists s', stop s = Normal tt s' /\ wired s'.
Proof.
  intros [[p P] F]. eexists. split; [reflexivity |].
  destruct s as [pn g a act [id |] an c h]; cbn in *; subst; cbn;
    (split; [eexists; reflexivity | assumption]).
Qed.

Lemma step_wired (e : event N) (s : state N) :
  wired s -> exists s', step e s = Normal tt s' /\ wired s'.
Proof.
  intro W. destruct e; cbn.
  - unfold EightDProcessor.start. destruct (isActive s) eqn:A; [eauto |].
    apply animate_wired. exact W.
  - apply stop_wired, W.
  - eexists. split; [reflexivity | exact W].
  - eexists. split; [reflexivity | exact W].
  - eexists. split; [reflexivity | exact W].
  - unfold EightDProcessor.frame. apply run_callbacks_wired. exact W.
  - eexists. split; [reflexivity |]. destruct W as [P F]. split; [exact P | exact F].
Qed.

(** From its construction on, no call and no event makes the engine throw,
    and it stays wired. *)
Lemma run_wired (es : list (event N)) :
  forall s, wired s -> exists s', run es s = Normal tt s' /\ wired s'.
Proof.
  induction es as [| e es IH]; intros s W; cbn.
  - exists s. split; [reflexivity | exact W].
  - unfold bind. destruct (step_wired e W) as (s1 & E & W1). rewrite E. auto.
Qed.

Lemma constructor_wired (h : Host N) : wired (constructor h).
Proof. split; [eexists; reflexivity | reflexivity]. Qed.

Lemma reachable_wired (h : Host N) (es : list (event N)) :
  exists s, run es (constructor h) = Normal tt s /\ wired s.
Proof. apply run_wired, constructor_wired. Qed.

Lemma overwrite_length (src dst : Uint8Array) :
  length (overwrite src dst) = length dst.
Proof.
  revert src. induction dst as [| d dst IH]; intros [| b src]; cbn; auto.
Qed.

(** C5.  After any sequence of calls and host events from the construction
    on, [start()] and [stop()] are idempotent: a second [start()] changes
    nothing of the state a first one left (angle and running flag included),
    [stop()] leaves the panner at the centre-front point (0, 0, -1), and a
    second [stop()] changes nothing either. *)
Theorem start_stop_idempotent (h : Host N) (es : list (event N)) :
  exists s,
    run es (constructor h) = Normal tt s
    /\ (exists s1, start s = Normal tt s1 /\ start s1 = Normal tt s1)
    /\ (exists s2,
           stop s = Normal tt s2
           /\ pannerPosition s2 = Some centre_front
           /\ stop s2 = Normal tt s2).
Proof.
  destruct (reachable_wired h es) as (s & R & [[p P] F]).
  exists s. split; [exact R | split].
  - destruct (isActive s) eqn:A.
    + exists s. unfold EightDProcessor.start. rewrite A. auto.
    + destruct (@animate_active (set_isActive true s) p [] eq_refl P)
        as (s1 & E & _ & _ & _ & A1 & _).
      exists s1. unfold EightDProcessor.start. rewrite A, A1. auto.
  - eexists. split; [reflexivity |].
    destruct s as [pn g a act [id |] an c hs]; cbn in *; subst; cbn; auto.
Qed.

(** C10.  [stop()] leaves the accumulated angle (and the configuration) as it
    was and clears the running flag; a [start()] after it runs again and its
    first tick continues from the angle before the stop, to
    [angle + speed * 0.05]. *)
Theorem stop_keeps_angle (h : Host N) (es : list (event N)) :
  exists s,
    run es (constructor h) = Normal tt s
    /\ exists s1,
        stop s = Normal tt s1
        /\ angle s1 = angle s
        /\ config s1 = config s
        /\ isActive s1 = false
        /\ exists s2,
            start s1 = Normal tt s2
            /\ isActive s2 = true
            /\ angle s2 = angle s + speed (config s) * dec 5 100.
Proof.
  destruct (reachable_wired h es) as (s & R & W).
  exists s. split; [exact R |].
  destruct (stop_wired W) as (s1 & S1 & [[p1 P1] F1]).
  assert (K : angle s1 = angle s /\ config s1 = config s /\ isActive s1 = false).
  { unfold stop in S1. injection S1 as <-.
    destruct s as [pn g a act [id |] an c hs]; destruct pn; cbn; auto. }
  destruct K as (Ka & Kc & Ki).
  exists s1. repeat (split; [assumption |]).
  destruct (@animate_active (set_isActive true s1) p1 [] eq_refl P1)
    as (s2 & E & An & _ & _ & A2 & _).
  exists s2. unfold EightDProcessor.start. rewrite Ki.
  split; [exact E | split; [exact A2 |]].
  rewrite An. cbn. now rewrite Ka, Kc.
Qed.

(** C8.  The constructor sets the configuration to speed 2.5, intensity 1.0,
    radius 5.0.  [updateConfig(partial)] always returns; each field that
    [partial] carries replaces the field of the configuration and each other
    field keeps its value; the angle, the running flag and every other part of
    the engine and of its host are unchanged. *)
Theorem updateConfig_merges (h : Host N) (s : state N) (partial : PartialConfig N) :
  config (constructor h)
  = {| speed := dec 25 10; intensity := of_Z 1; radius := of_Z 5 |}
  /\ exists s',
      updateConfig partial s = Normal tt s'
      /\ speed (config s')
         = match speed_opt partial with Some v => v | None => speed (config s) end
      /\ intensity (config s')
         = match intensity_opt partial with Some v => v | None => intensity (config s) end
      /\ radius (config s')
         = match radius_opt partial with Some v => v | None => radius (config s) end
      /\ angle s' = angle s
      /\ isActive s' = isActive s
      /\ animationId s' = animationId s
      /\ pannerNodes s' = pannerNodes s
      /\ gainNode s' = gainNode s
      /\ analyserNode s' = analyserNode s
      /\ host s' = host s.
Proof.
  split; [reflexivity |].
  eexists. split; [reflexivity |]. cbn. repeat split; reflexivity.
Qed.

(** C9.  After any sequence of calls and host events from the construction
    on, running or stopped, [getAnalyserData()] returns, leaves the engine as
    it is, and its array has [frequencyBinCount = fftSize / 2 = 1024] entries,
    each a byte, from 0 to 255. *)
Theorem getAnalyserData_shape (h : Host N) (es : list (event N)) :
  exists s,
    run es (constructor h) = Normal tt s
    /\ exists data,
        getAnalyserData s = Normal data s
        /\ length data = Nat.div (fftSize (analyserNode s)) 2
        /\ length data = 1024%nat
        /\ Forall (fun b => (0 <= Byte.to_N b <= 255)%N) data.
Proof.
  destruct (reachable_wired h es) as (s & R & [_ F]).
  exists s. split; [exact R |].
  eexists. split; [reflexivity |].
  assert (L : length (getByteFrequencyData (analyserNode s)
                        (new_Uint8Array (frequencyBinCount (analyserNode s))))
              = Nat.div (fftSize (analyserNode s)) 2).
  { unfold getByteFrequencyData, new_Uint8Array, frequencyBinCount.
    now rewrite overwrite_length, repeat_length. }
  split; [exact L | split].
  - rewrite L, F. reflexivity.
  - apply Forall_forall. intros b _. split; [apply N.le_0_l |].
    pose proof (Byte.to_N_bounded b). lia.
Qed.

End Engine.

(* ================================================================== *)
(** ** The rotation scenario *)
(* ================================================================== *)

Section Rotation.
Import EightDProcessor.

(** C4.  A tick of a running engine adds [speed * 0.05] to the angle and puts
    the panner at [(cos(angle) * r, 0, sin(angle) * r)] with
    [r = radius * intensity], whatever the carrier and the functions [Math.cos]
    and [Math.sin] are.  Over the reals, ten ticks from the construction with
    [speed = 2.0, radius = 1.0, intensity = 1.0] end at angle 1 and position
    [(cos 1, 0, sin 1)].  On binary64 the same ten ticks end at the angle
    0x1.fffffffffffffp-1, which is within 2^-53 of 1. *)
Theorem rotation_after_ten_ticks :
  (forall (N : Type) (H : Number N) (Math_cos Math_sin : N -> N)
          (s : state N) (p : PannerNode N) (rest : list (PannerNode N)),
      isActive s = true ->
      pannerNodes s = p :: rest ->
      exists s',
        animate Math_cos Math_sin s = Normal tt s'
        /\ angle s' = (angle s + speed (config s) * dec 5 100)%js
        /\ pannerPosition s'
           = Some {| vx := (Math_cos (angle s')
                            * (radius (config s) * intensity (config s)))%js;
                     vy := of_Z 0;
                     vz := (Math_sin (angle s')
                            * (radius (config s) * intensity (config s)))%js |})
  /\ (exists s : state R,
         run cos sin ten_ticks (constructor a_host) = Normal tt s
         /\ isActive s = true
         /\ angle s = 1%R
         /\ pannerPosition s = Some {| vx := cos 1; vy := 0%R; vz := sin 1 |})
  /\ (forall Math_cos Math_sin : float -> float,
         exists s : state float,
           run Math_cos Math_sin ten_ticks (constructor a_host) = Normal tt s
           /\ isActive s = true
           /\ angle s = 0x1.fffffffffffffp-1%float
           /\ (Math_abs (angle s - of_Z 1) <=? of_Z 1 / of_Z (2 ^ 53))%js = true).
Proof.
  split; [| split].
  - intros N H c sn s p rest A P.
    destruct (animate_active c sn s A P) as (s' & E & An & Pn & _).
    exists s'. split; [exact E | split; [exact An |]].
    unfold pannerPosition. rewrite Pn. reflexivity.
  - eexists. split.
    + cbv -[Rplus Rmult Rdiv Rminus Ropp Rinv IZR cos sin]. reflexivity.
    + cbn [isActive angle pannerPosition pannerNodes hd_error option_map position].
      split; [reflexivity |].
      assert (A : (IZR 0 + IZR 2 * (IZR 5 / IZR 100) + IZR 2 * (IZR 5 / IZR 100)
                   + IZR 2 * (IZR 5 / IZR 100) + IZR 2 * (IZR 5 / IZR 100)
                   + IZR 2 * (IZR 5 / IZR 100) + IZR 2 * (IZR 5 / IZR 100)
                   + IZR 2 * (IZR 5 / IZR 100) + IZR 2 * (IZR 5 / IZR 100)
                   + IZR 2 * (IZR 5 / IZR 100) + IZR 2 * (IZR 5 / IZR 100) = 1)%R)
        by Lra.lra.
      rewrite A. split; [reflexivity |].
      do 2 f_equal; Lra.lra.
  - intros c sn. eexists. split; [vm_compute; reflexivity |].
    repeat split; vm_compute; reflexivity.
Qed.

Lemma rotation_after_ten_ticks_witness :
  exists s' : state R,
    animate cos sin (set_isActive true (constructor a_host)) = Normal tt s'
    /\ angle s' = (0 + 25 / 10 * (5 / 100))%R.
Proof.
  destruct (proj1 rotation_after_ten_ticks R _ cos sin
                  (set_isActive true (constructor a_host)) _ _ eq_refl eq_refl)
    as (s' & E & A & _).
  exists s'. split; [exact E | exact A].
Defined.

End Rotation.

(* ================================================================== *)
(** ** More on the rotation engine *)
(* ================================================================== *)

Section EngineSchedule.
Import EightDProcessor.
Context {N : Type} `{Number N}.
Variables Math_cos Math_sin : N -> N.
Local Open Scope js_scope.

Local Abbreviation animate := (animate Math_cos Math_sin).
Local Abbreviation start := (start Math_cos Math_sin).
Local Abbreviation frame := (frame Math_cos Math_sin).
Local Abbreviation step := (step Math_cos Math_sin).
Local Abbreviation run := (run Math_cos Math_sin).

(** A tick of a running engine with no frame requested: it requests one. *)
Lemma animate_schedules (s : state N) :
  wired s -> level s ->
  isActive s = true ->
  pendingFrames (host s) = [] ->
  exists s',
    animate s = Normal tt s'
    /\ steady s'
    /\ isActive s' = true
    /\ angle s' = angle s + speed (config s) * dec 5 100
    /\ config s' = config s.
Proof.
  intros [[p P] F] L A E.
  destruct (animate_active Math_cos Math_sin s A P)
    as (s' & R & An & Pn & C & A' & Az & _ & Id & Pf).
  exists s'. split; [exact R |]. repeat split; auto.
  - eauto.
  - now rewrite Az.
  - unfold scheduled. rewrite A'. exists (nextHandle (host s)).
    rewrite Id, Pf, E. auto.
  - unfold level. rewrite Pn. constructor; [reflexivity | constructor].
Qed.

Lemma stop_steady (s : state N) :
  steady s ->
  exists s',
    stop s = Normal tt s'
    /\ steady s'
    /\ isActive s' = false
    /\ pannerPosition s' = Some centre_front
    /\ angle s' = angle s.
Proof.
  intros ([[p P] F] & S & L). eexists. split; [reflexivity |].
  unfold scheduled in S.
  destruct s as [pn g a act aid an c [l nh pf]]; cbn -[Nat.eqb] in *; subst pn.
  destruct act.
  - destruct S as (id & -> & ->).
    unfold steady, wired, scheduled, level. cbn -[Nat.eqb].
    rewrite Nat.eqb_refl. cbn.
    repeat split; eauto.
  - destruct S as (-> & ->).
    unfold steady, wired, scheduled, level. cbn.
    repeat split; eauto.
Qed.

Lemma frame_steady (s : state N) :
  steady s ->
  exists s',
    frame s = Normal tt s'
    /\ steady s'
    /\ isActive s' = isActive s
    /\ config s' = config s
    /\ angle s'
       = (if isActive s then angle s + speed (config s) * dec 5 100 else angle s).
Proof.
  intros (W & S & L). unfold EightDProcessor.frame, scheduled in *.
  destruct (isActive s) eqn:A.
  - destruct S as (id & Id & Pf). rewrite Pf. cbn [EightDProcessor.run_callbacks].
    unfold bind.
    destruct (@animate_schedules
                (set_host {| listener := listener (host s);
                             nextHandle := nextHandle (host s);
                             pendingFrames := [] |} s))
      as (s' & R & St & A' & An & C); auto.
    rewrite R. exists s'. cbn in An, C. repeat split; auto; apply St.
  - destruct S as (Id & Pf). rewrite Pf. cbn.
    eexists. split; [reflexivity |]. cbn. repeat split; auto.
    + apply W.
    + apply W.
    + unfold scheduled. cbn. rewrite A. auto.
Qed.

Lemma step_steady (e : event N) (s : state N) :
  steady s -> exists s', step e s = Normal tt s' /\ steady s'.
Proof.
  intro St. destruct e; cbn.
  - unfold EightDProcessor.start. destruct (isActive s) eqn:A; [eauto |].
    destruct St as (W & S & L). unfold scheduled in S. rewrite A in S.
    destruct (@animate_schedules (set_isActive true s)) as (s' & R & St' & _); auto.
    + apply S.
    + eauto.
  - destruct (stop_steady St) as (s' & R & St' & _). eauto.
  - eexists. split; [reflexivity | exact St].
  - eexists. split; [reflexivity | exact St].
  - eexists. split; [reflexivity | exact St].
  - destruct (frame_steady St) as (s' & R & St' & _). eauto.
  - eexists. split; [reflexivity |]. destruct St as ([P F] & S & L).
    repeat split; auto.
Qed.

Lemma run_steady (es : list (event N)) :
  forall s, steady s -> exists s', run es s = Normal tt s' /\ steady s'.
Proof.
  induction es as [| e es IH]; intros s St; cbn.
  - exists s. split; [reflexivity | exact St].
  - unfold bind. destruct (step_steady e St) as (s1 & E & St1). rewrite E. auto.
Qed.

Lemma constructor_steady (h : Host N) : idle h -> steady (constructor h).
Proof.
  intro I. split; [apply constructor_wired | split].
  - unfold scheduled. cbn. auto.
  - unfold level. cbn. constructor; [reflexivity | constructor].
Qed.

(** X2.  After [stop()] no frame moves the engine: whatever number of frames
    the host runs, the state stays the one [stop()] left, the panner at the
    centre-front point and the angle as before the stop. *)
Theorem frames_after_stop (h : Host N) (es : list (event N)) (n : nat) :
  idle h ->
  exists s s1,
    run es (constructor h) = Normal tt s
    /\ stop s = Normal tt s1
    /\ run (repeat Frame n) s1 = Normal tt s1
    /\ pannerPosition s1 = Some centre_front
    /\ angle s1 = angle s.
Proof.
  intro I. destruct (run_steady es (constructor_steady I)) as (s & R & St).
  destruct (stop_steady St) as (s1 & R1 & (W1 & S1 & L1) & A1 & P1 & An1).
  exists s, s1. repeat split; auto.
  assert (F : frame s1 = Normal tt s1).
  { unfold scheduled in S1. rewrite A1 in S1. destruct S1 as (_ & Pf).
    unfold EightDProcessor.frame. rewrite Pf. cbn.
    destruct s1 as [pn g a act aid an c [l nh pf]]; cbn in *. now subst pf. }
  induction n as [| n IH]; cbn; [reflexivity |].
  unfold bind. rewrite F. exact IH.
Qed.

(** X3.  The rotation stays in the horizontal plane: after any calls and
    events the panner's [y] is 0. *)
Theorem panner_stays_level (h : Host N) (es : list (event N)) :
  idle h ->
  exists s v,
    run es (constructor h) = Normal tt s
    /\ pannerPosition s = Some v
    /\ vy v = of_Z 0.
Proof.
  intro I.
  destruct (run_steady es (constructor_steady I)) as (s & R & [[p P] F] & _ & L).
  exists s, (position p). repeat split; auto.
  - unfold pannerPosition. rewrite P. reflexivity.
  - unfold level in L. rewrite P in L. now inversion L.
Qed.

(** The frames of a running engine, one tick each. *)
Lemma frames_tick (n : nat) :
  forall s,
    steady s ->
    isActive s = true ->
    exists s',
      run (repeat Frame n) s = Normal tt s'
      /\ steady s'
      /\ isActive s' = true
      /\ config s' = config s
      /\ angle s' = Nat.iter n (fun a => a + speed (config s) * dec 5 100) (angle s).
Proof.
  induction n as [| n IH]; intros s St A.
  - exists s. cbn. auto.
  - destruct (frame_steady St) as (s1 & R1 & St1 & A1 & C1 & An1).
    rewrite A in A1, An1.
    destruct (IH s1 St1 A1) as (s' & R & St' & A' & C' & An').
    exists s'. cbn [repeat EightDProcessor.run EightDProcessor.step].
    unfold bind. rewrite R1. repeat split; auto; try apply St'.
    + congruence.
    + rewrite An', C1, An1. symmetry.
      exact (@Nat.iter_succ_r n N (fun a => a + speed (config s) * dec 5 100) (angle s)).
Qed.

(** X4.  Two [updateConfig] calls are one call with the fields of the later
    first; so a repeated call changes nothing more, and a call with no field
    changes nothing. *)
Theorem updateConfig_composes (s : state N) (p q : PartialConfig N) :
  (updateConfig p ;;; updateConfig q) s = updateConfig (overlay p q) s
  /\ (updateConfig p ;;; updateConfig p) s = updateConfig p s
  /\ updateConfig {| speed_opt := None; intensity_opt := None; radius_opt := None |} s
     = Normal tt s.
Proof.
  destruct s as [pn g a act aid an [sp it rd] hs].
  destruct p as [[ps |] [pi |] [pr |]], q as [[qs |] [qi |] [qr |]];
    repeat split; reflexivity.
Qed.

End EngineSchedule.

(** The theorems at work, on the reals with the real cosine and sine. *)
Section EngineScheduleWitnesses.
Import EightDProcessor.

Lemma frames_after_stop_witness :
  exists s s1 : state R,
    run cos sin [Start; Frame] (constructor a_host) = Normal tt s
    /\ stop s = Normal tt s1
    /\ run cos sin (repeat Frame 3) s1 = Normal tt s1
    /\ pannerPosition s1 = Some centre_front
    /\ angle s1 = angle s.
Proof.
  exact (@frames_after_stop R _ cos sin a_host [Start; Frame] 3 eq_refl).
Defined.

Lemma panner_stays_level_witness :
  exists (s : state R) v,
    run cos sin [Start; Frame; Stop] (constructor a_host) = Normal tt s
    /\ pannerPosition s = Some v
    /\ vy v = of_Z 0.
Proof.
  exact (@panner_stays_level R _ cos sin a_host [Start; Frame; Stop] eq_refl).
Defined.

End EngineScheduleWitnesses.

Section EngineOnExactNumbers.
Import EightDProcessor.



Lemma iter_add_linear (k : R) (n : nat) (a : R) :
  Nat.iter n (fun x => (x + k)%R) a = (a + INR n * k)%R.
Proof.
  induction n as [| n IH].
  - cbn. Lra.lra.
  - rewrite S_INR.
    change (Nat.iter (S n) (fun x => (x + k)%R) a)
      with (Nat.iter n (fun x => (x + k)%R) a + k)%R.
    rewrite IH. Lra.lra.
Qed.





Local Open Scope Q_scope.

(** X7.  [setVolume(volume)] always returns and sets the gain to [volume]
    clamped to [0, 1]: the gain is in [0, 1], it is [volume] when [volume] is,
    0 below and 1 above; nothing else of the engine changes. *)
Theorem setVolume_clamps (s : state Q) (volume : Q) :
  exists s',
    setVolume volume s = Normal tt s'
    /\ 0 <= gain (gainNode s') <= 1
    /\ (0 <= volume <= 1 -> gain (gainNode s') == volume)
    /\ (volume <= 0 -> gain (gainNode s') == 0)
    /\ (1 <= volume -> gain (gainNode s') == 1)
    /\ angle s' = angle s
    /\ isActive s' = isActive s
    /\ config s' = config s
    /\ pannerNodes s' = pannerNodes s
    /\ analyserNode s' = analyserNode s
    /\ host s' = host s.
Proof.
  eexists. split; [reflexivity |]. cbn [gain gainNode set_gainNode angle isActive
    config pannerNodes analyserNode host].
  cbn [Math_max Math_min Q_Number of_Z].
  destruct (Q_lt volume (inject_Z 1)) eqn:E1;
    [apply Q_lt_true in E1 | apply Q_lt_false in E1];
    (destruct (Q_lt (inject_Z 0) _) eqn:E0;
     [apply Q_lt_true in E0 | apply Q_lt_false in E0]);
    unfold inject_Z in *; repeat split; intros; try reflexivity; try Lqa.lra.
Qed.

Lemma setVolume_clamps_witness :
  exists s' : state Q,
    setVolume (1 # 2) (constructor a_host) = Normal tt s'
    /\ gain (gainNode s') == 1 # 2.
Proof.
  destruct (setVolume_clamps (constructor a_host) (1 # 2)) as (s' & E & _ & V & _).
  exists s'. split; [exact E | apply V; split; discriminate].
Defined.

End EngineOnExactNumbers.

(* ================================================================== *)
(** ** More on the tempo analysis *)
(* ================================================================== *)

Section PeaksAndIntervals.
Import AudioProcessor.
Context {N : Type} `{Number N}.
Variable maxArguments : Z.
Local Open Scope js_scope.

Local Abbreviation detectBPM := (detectBPM maxArguments).
Local Abbreviation analyzeFile := (analyzeFile maxArguments).

Lemma seq_increasing (count : nat) :
  forall start, StronglySorted lt (seq start count).
Proof.
  induction count as [| count IH]; intro start; cbn; constructor; [apply IH |].
  apply Forall_forall. intros j Hj. apply in_seq in Hj. lia.
Qed.

Lemma filter_increasing (f : nat -> bool) (l : list nat) :
  StronglySorted lt l -> StronglySorted lt (filter f l).
Proof.
  induction 1 as [| a l S IH F]; cbn; [constructor |].
  destruct (f a); [| exact IH]. constructor; [exact IH |].
  apply Forall_forall. intros j Hj. apply filter_In in Hj.
  rewrite Forall_forall in F. apply F, Hj.
Qed.

Lemma peakIntervals_length (peaks : list N) :
  length (peakIntervals peaks) = (length peaks - 1)%nat.
Proof.
  induction peaks as [| p0 [| p1 rest] IH]; try reflexivity.
  change (peakIntervals (p0 :: p1 :: rest))
    with ((p1 - p0) :: peakIntervals (p1 :: rest)).
  cbn [length] in *. rewrite IH. lia.
Qed.

(** X8.  A buffer no longer than a window and two hops (about 0.2 s, the
    empty buffer included) has fewer than three energy windows, hence no
    peak: [analyzeFile] resolves to bpm 120 with confidence 0.85, whatever the
    samples are. *)
Theorem analyzeFile_short_buffer (this : state N) (file : File) (buf : AudioBuffer N) :
  decoded this file = Some buf ->
  positive_hop (sampleRate buf) ->
  (Z.of_nat (length (channelData0 buf))
   <= windowSizeOf (sampleRate buf) + 2 * hopSizeOf (windowSizeOf (sampleRate buf)))%Z ->
  analyzeFile file this
  = Normal {| bpm := of_Z 120; confidence := dec 85 100;
              optimalSpeed := calculateOptimalSpeed (of_Z 120) |}
           (holding this buf).
Proof.
  intros D [W Hp] Short. apply analyzeFile_decoded; [exact D |].
  unfold AudioProcessor.detectBPM, holding. cbn [audioBuffer audioContext].
  unfold decoded in D. destruct (audioContext this) as [ctx |]; [| discriminate].
  destruct (@energyLoop_terminates _ _ (fun _ => True) (channelData0 buf)
              (windowSizeOf (sampleRate buf)) _ Hp (fun _ => I)
              (S (Z.to_nat (Z.of_nat (length (channelData0 buf))
                            - windowSizeOf (sampleRate buf)))) 0%Z)
    as (energy & E & _); [lia |].
  rewrite E.
  assert (L : (length energy <= 2)%nat)
    by (eapply energyLoop_length; [exact Hp | exact E | lia]).
  unfold findPeaks.
  replace (length energy - 2)%nat with 0%nat by lia. reflexivity.
Qed.

(** X9.  The estimate does not depend on a buffer left by an earlier call:
    two processors with the same audio context end [analyzeFile] in the same
    way (both return, or both throw) with the same result or the same error;
    and when the file is decoded they are left in the same state too. *)
Theorem analyzeFile_ignores_old_buffer (this other : state N) (file : File) :
  audioContext this = audioContext other ->
  outcome (analyzeFile file this) = outcome (analyzeFile file other)
  /\ (decoded this file <> None ->
      analyzeFile file this = analyzeFile file other).
Proof.
  intro C. unfold decoded, AudioProcessor.analyzeFile. rewrite <- C.
  destruct (audioContext this) as [ctx |] eqn:E;
    [| split; [reflexivity | congruence]].
  unfold try_catch, bind, await, throw, ret, set_audioBuffer.
  destruct (arrayBuffer file) as [bytes |];
    [| split; [reflexivity | congruence]].
  destruct (decodeAudioData ctx bytes) as [buf |];
    [| split; [reflexivity | congruence]].
  rewrite <- C, E. split; reflexivity.
Qed.

End PeaksAndIntervals.

Section PeaksAndIntervalsWitnesses.
Import AudioProcessor.

Lemma analyzeFile_short_buffer_witness :
  analyzeFile 125000 readable_file
    (constructor
       (Some (decodes_to {| channelData0 := [1; 0; -1; 0]%Q;
                            sampleRate := 8000 |})))
  = Normal {| bpm := of_Z 120; confidence := dec 85 100;
              optimalSpeed := calculateOptimalSpeed (of_Z 120) |}
           (holding (constructor
                       (Some (decodes_to {| channelData0 := [1; 0; -1; 0]%Q;
                                            sampleRate := 8000 |})))
                    {| channelData0 := [1; 0; -1; 0]%Q;
                       sampleRate := 8000 |}).
Proof.
  apply analyzeFile_short_buffer; [reflexivity | apply positive_hop_Q; cbn; lia |].
  rewrite hopSizeOf_Q, windowSizeOf_Q. cbn. lia.
Defined.

Lemma analyzeFile_ignores_old_buffer_witness :
  outcome (analyzeFile 125000 readable_file
             (constructor (Some (decodes_to (N := Q) half_second_of_silence))))
  = outcome (analyzeFile 125000 readable_file
               (holding (constructor (Some (decodes_to half_second_of_silence)))
                        (silence 7 8000))).
Proof.
  apply (@analyzeFile_ignores_old_buffer Q _ 125000). reflexivity.
Defined.

End PeaksAndIntervalsWitnesses.

Section TempoOnExactNumbers.
Import AudioProcessor.
Local Open Scope Q_scope.

Ltac cases_lt a b :=
  let E := fresh "E" in
  destruct (Q_lt a b) eqn:E; [apply Q_lt_true in E | apply Q_lt_false in E].

Lemma peak_time_Q (hopSize rate : Z) (i : nat) :
  peak_time hopSize rate i
  == inject_Z (Z.of_nat i) * inject_Z hopSize / inject_Z rate.
Proof.
  unfold peak_time. cbn [num_div num_mul of_Z Q_Number].
  rewrite !Qred_correct. reflexivity.
Qed.

Lemma peak_time_increasing (hopSize rate : Z) (i j : nat) :
  (0 < hopSize)%Z -> (0 < rate)%Z -> (i < j)%nat ->
  peak_time hopSize rate i < peak_time hopSize rate j.
Proof.
  intros Hh Hr L. rewrite !peak_time_Q. unfold Qdiv.
  apply Qmult_lt_compat_r.
  - apply Qinv_lt_0_compat. change 0 with (inject_Z 0). rewrite <- Zlt_Qlt. exact Hr.
  - apply Qmult_lt_compat_r.
    + change 0 with (inject_Z 0). rewrite <- Zlt_Qlt. exact Hh.
    + rewrite <- Zlt_Qlt. lia.
Qed.

Lemma intervals_positive (hopSize rate : Z) (l : list nat) :
  (0 < hopSize)%Z -> (0 < rate)%Z ->
  StronglySorted lt l ->
  Forall (fun d => 0 < d) (peakIntervals (map (peak_time hopSize rate) l)).
Proof.
  intros Hh Hr. induction l as [| i [| j rest] IH]; intro S;
    [constructor | constructor |].
  change (peakIntervals (map (peak_time hopSize rate) (i :: j :: rest)))
    with ((peak_time (N := Q) hopSize rate j - peak_time hopSize rate i)%js
          :: peakIntervals (map (peak_time hopSize rate) (j :: rest))).
  apply StronglySorted_inv in S. destruct S as [S F].
  constructor; [| exact (IH S)].
  cbn [num_sub Q_Number]. rewrite Qred_correct.
  assert (L : (i < j)%nat) by (inversion F; assumption).
  pose proof (@peak_time_increasing _ _ i j Hh Hr L). Lqa.lra.
Qed.

Lemma total_grows (l : list Q) :
  Forall (fun d => 0 < d) l ->
  forall acc,
    acc <= fold_left (fun a b => (a + b)%js) l acc
    /\ (l <> [] -> acc < fold_left (fun a b => (a + b)%js) l acc).
Proof.
  induction 1 as [| d l D F IH]; intro acc; cbn [fold_left].
  - split; [apply Qle_refl | congruence].
  - destruct (IH (acc + d)%js) as [G _].
    assert (A : acc < (acc + d)%js)
      by (cbn [num_add Q_Number]; rewrite Qred_correct; Lqa.lra).
    split; [| intros _]; Lqa.lra.
Qed.

(** X10.  With a positive hop and sample rate the peak times strictly
    increase, so every interval between consecutive peaks is positive; and
    when there is an interval, the average interval that [detectBPM] divides
    60 by is positive: that division is never a division by zero.  This is so
    for the peaks of every peak loop that returns, whatever number of
    arguments the engine accepts. *)
Theorem average_interval_positive (maxArguments : Z) (energy : list Q)
        (hopSize rate : Z) (peaks : list Q) :
  (0 < hopSize)%Z -> (0 < rate)%Z ->
  findPeaks maxArguments energy hopSize rate = Some peaks ->
  Forall (fun d => 0 < d) (peakIntervals peaks)
  /\ (peakIntervals peaks <> [] ->
      0 < (total (peakIntervals peaks)
           / of_Z (Z.of_nat (length (peakIntervals peaks))))%js).
Proof.
  intros Hh Hr F.
  assert (P : Forall (fun d => 0 < d) (peakIntervals peaks)).
  { rewrite findPeaks_spec in F.
    destruct ((maxArguments <? Z.of_nat (length energy))%Z
              && existsb (local_maximum energy) (seq 1 (length energy - 2)));
      [discriminate |].
    injection F as <-. apply intervals_positive; auto.
    apply filter_increasing, seq_increasing. }
  split; [exact P |]. intro NE.
  destruct (total_grows P (of_Z 0)) as [_ T]. specialize (T NE).
  fold (total (peakIntervals peaks)) in T.
  cbn [num_div of_Z Q_Number]. rewrite Qred_correct.
  apply Qlt_shift_div_l.
  - change 0 with (inject_Z 0). rewrite <- Zlt_Qlt.
    destruct (peakIntervals peaks); [congruence | cbn; lia].
  - change (of_Z 0 : Q) with 0 in T. Lqa.lra.
Qed.

Lemma average_interval_positive_witness :
  findPeaks 125000 [0; 1; 0; 2; 0; 3; 0]%Q 400 8000 = Some [1 # 20; 3 # 20; 1 # 4]%Q
  /\ Forall (fun d => 0 < d) (peakIntervals [1 # 20; 3 # 20; 1 # 4]%Q)
  /\ 0 < (total (peakIntervals [1 # 20; 3 # 20; 1 # 4]%Q)
          / of_Z (Z.of_nat (length (peakIntervals [1 # 20; 3 # 20; 1 # 4]%Q))))%js.
Proof.
  assert (F : findPeaks 125000 [0; 1; 0; 2; 0; 3; 0]%Q 400 8000
              = Some [1 # 20; 3 # 20; 1 # 4]%Q) by (vm_compute; reflexivity).
  destruct (@average_interval_positive 125000 _ 400 8000 _ eq_refl eq_refl F)
    as [P A].
  split; [exact F | split; [exact P | apply A; discriminate]].
Defined.

Lemma last_cons (A : Type) (a d : A) (l : list A) : last (a :: l) d = last l a.
Proof.
  revert a d. induction l as [| b l IH]; intros a d; [reflexivity |].
  change (last (a :: b :: l) d) with (last (b :: l) d).
  now rewrite (IH b d), (IH b a).
Qed.

Lemma fold_intervals (rest : list Q) :
  forall first acc,
    fold_left (fun a b => (a + b)%js) (peakIntervals (first :: rest)) acc
    == acc + (last rest first - first).
Proof.
  induction rest as [| p1 rest IH]; intros first acc.
  - cbn. ring.
  - change (peakIntervals (first :: p1 :: rest))
      with ((p1 - first)%js :: peakIntervals (p1 :: rest)).
    cbn [fold_left]. rewrite IH.
    cbn [num_add num_sub Q_Number]. rewrite !Qred_correct.
    rewrite last_cons. ring.
Qed.

(** X11.  The intervals telescope: their sum is the time from the first peak
    to the last, and there is one interval fewer than peaks.  So the average
    interval, of which [detectBPM] takes 60 over, only depends on the first
    peak, the last peak and the number of peaks. *)
Theorem intervals_telescope (first : Q) (rest : list Q) :
  total (peakIntervals (first :: rest)) == last rest first - first
  /\ length (peakIntervals (first :: rest)) = length rest.
Proof.
  split.
  - unfold total. rewrite fold_intervals. change (of_Z 0 : Q) with 0. ring.
  - rewrite peakIntervals_length. cbn. lia.
Qed.

Lemma round_clamped_is_integer (x : Q) :
  exists z : Z,
    Math_max (of_Z 60) (Math_min (of_Z 200) (Math_round x)) = inject_Z z
    /\ (60 <= z <= 200)%Z.
Proof.
  cbn [Math_max Math_min Math_round Q_Number of_Z]. unfold Q_round.
  set (k := Qfloor (x + (1 # 2))).
  cases_lt (inject_Z k) (inject_Z 200).
  - rewrite <- Zlt_Qlt in E. cases_lt (inject_Z 60) (inject_Z k).
    + rewrite <- Zlt_Qlt in E0. exists k. split; [reflexivity | lia].
    + exists 60%Z. split; [reflexivity | lia].
  - cases_lt (inject_Z 60) (inject_Z 200).
    + exists 200%Z. split; [reflexivity | lia].
    + exists 60%Z. split; [reflexivity | lia].
Qed.

(** What [detectBPM] returns is an integer from 60 to 200. *)
Lemma detectBPM_in_range (maxArguments : Z) (this : state Q) :
  (exists z : Z,
      detectBPM maxArguments this = Normal (inject_Z z) this /\ (60 <= z <= 200)%Z)
  \/ (exists e, detectBPM maxArguments this = Throw e this).
Proof.
  unfold detectBPM.
  destruct (audioBuffer this) as [buf |];
    [| left; exists 120%Z; split; [reflexivity | lia]].
  destruct (audioContext this) as [ctx |];
    [| left; exists 120%Z; split; [reflexivity | lia]].
  destruct (energyLoop _ _ _ _ _) as [energy |]; [| right; eauto].
  destruct (findPeaks _ _ _ _) as [peaks |]; [| right; eauto].
  left.
  match goal with |- context [if ?b then _ else _] => destruct b end.
  - exists 120%Z; split; [reflexivity | lia].
  - match goal with
      |- context [Math_max _ (Math_min _ (Math_round ?x))] =>
        destruct (round_clamped_is_integer x) as (z & -> & R)
    end.
    exists z. split; [reflexivity | exact R].
Qed.

Lemma clamp_monotone (x y : Q) :
  x <= y -> clamp x (dec 5 10) (of_Z 5) <= clamp y (dec 5 10) (of_Z 5).
Proof.
  intro L. change (dec 5 10 : Q) with (1 # 2). change (of_Z 5 : Q) with (inject_Z 5).
  unfold clamp. cbn [num_lt Q_Number].
  cases_lt x (1 # 2); cases_lt y (1 # 2);
    try cases_lt (inject_Z 5) x; try cases_lt (inject_Z 5) y;
    cbn in *; unfold inject_Z in *; Lqa.lra.
Qed.

Lemma to_2_decimals_monotone (a b : Q) : a <= b -> to_2_decimals a <= to_2_decimals b.
Proof.
  intro L. rewrite !to_2_decimals_eq.
  assert (F : (Qfloor (a * 100 + (1 # 2)) <= Qfloor (b * 100 + (1 # 2)))%Z)
    by (apply Qfloor_resp_le; Lqa.lra).
  rewrite Zle_Qle in F. unfold Qdiv.
  apply Qmult_le_compat_r; [exact F | discriminate].
Qed.

Lemma calculateOptimalSpeed_as_clamp (bpm : Q) :
  calculateOptimalSpeed bpm
  == to_2_decimals (clamp (bpm / 60 * (1 # 4)) (dec 5 10) (of_Z 5)).
Proof.
  rewrite calculateOptimalSpeed_unfold.
  apply to_2_decimals_comp. rewrite max_min_is_clamp. apply clamp_comp.
  cbn [num_div num_mul Q_Number of_Z]. rewrite !Qred_correct. reflexivity.
Qed.

Lemma calculateOptimalSpeed_grows (x y : Q) :
  x <= y -> calculateOptimalSpeed x <= calculateOptimalSpeed y.
Proof.
  intro Lxy. rewrite !calculateOptimalSpeed_as_clamp.
  apply to_2_decimals_monotone, clamp_monotone. unfold Qdiv.
  apply Qmult_le_compat_r; [apply Qmult_le_compat_r; [exact Lxy |] |]; discriminate.
Qed.

(** X12.  The speed grows with the tempo: [calculateOptimalSpeed] is monotone
    in [bpm]; it is 0.5 for every [bpm] up to 120 and 5 from 1200 on, and at
    most 0.83 for a [bpm] up to 200. *)
Theorem calculateOptimalSpeed_monotone (a b : Q) :
  a <= b ->
  calculateOptimalSpeed a <= calculateOptimalSpeed b
  /\ (b <= 120 -> calculateOptimalSpeed b == 1 # 2)
  /\ (1200 <= a -> calculateOptimalSpeed a == 5)
  /\ (b <= 200 -> calculateOptimalSpeed b <= 83 # 100).
Proof.
  intro L.
  pose proof calculateOptimalSpeed_grows as M.
  split; [apply M, L | split; [| split]].
  - intro U. apply Qle_antisym; [| apply calculateOptimalSpeed_bounds].
    apply Qle_trans with (calculateOptimalSpeed 120); [apply M, U | discriminate].
  - intro U. apply Qle_antisym; [apply calculateOptimalSpeed_bounds |].
    apply Qle_trans with (calculateOptimalSpeed 1200); [discriminate | apply M, U].
  - intro U. apply Qle_trans with (calculateOptimalSpeed 200); [apply M, U | discriminate].
Qed.

Lemma calculateOptimalSpeed_monotone_witness :
  calculateOptimalSpeed 90 <= calculateOptimalSpeed 100
  /\ calculateOptimalSpeed 100 == 1 # 2.
Proof.
  destruct (@calculateOptimalSpeed_monotone 90 100) as (M & F & _); [discriminate |].
  split; [exact M | apply F; discriminate].
Defined.

(** X13.  Every estimate that [analyzeFile] resolves to is well formed: with
    an audio context the call returns, whatever the file; the bpm is an
    integer from 60 to 200, and either the estimate is the fallback
    (confidence 0.5, speed 2) or its confidence is 0.85 and its speed, the
    speed of its bpm, lies in [0.5, 0.83]. *)
Theorem analyzeFile_estimate_well_formed (maxArguments : Z)
        (this : state Q) (file : File) (ctx : AudioContext Q) :
  audioContext this = Some ctx ->
  exists r s',
    analyzeFile maxArguments file this = Normal r s'
    /\ (exists z : Z, bpm r = inject_Z z /\ (60 <= z <= 200)%Z)
    /\ (r = fallback
        \/ (confidence r = 17 # 20
            /\ optimalSpeed r = calculateOptimalSpeed (bpm r)
            /\ 1 # 2 <= optimalSpeed r <= 83 # 100)).
Proof.
  intros C. destruct (decoded this file) as [buf |] eqn:D.
  - destruct (detectBPM_in_range maxArguments (holding this buf))
      as [(z & B & R) | (e & B)].
    + rewrite (@analyzeFile_decoded _ _ maxArguments this file buf D _ B).
      eexists. eexists.
      split; [reflexivity |]. cbn [bpm confidence optimalSpeed].
      split; [exists z; auto | right].
      split; [reflexivity | split; [reflexivity |]].
      split; [apply calculateOptimalSpeed_bounds |].
      apply Qle_trans with (calculateOptimalSpeed 200); [| discriminate].
      apply calculateOptimalSpeed_grows.
      change 200 with (inject_Z 200). rewrite <- Zle_Qle. lia.
    + rewrite (@analyzeFile_caught _ _ maxArguments this file buf D e B).
      eexists. eexists.
      split; [reflexivity |]. split; [| left; reflexivity].
      exists 120%Z. split; [reflexivity | lia].
  - rewrite (@analyzeFile_undecodable _ _ maxArguments this file ctx C D).
    eexists. eexists.
    split; [reflexivity |]. split; [| left; reflexivity].
    exists 120%Z. split; [reflexivity | lia].
Qed.

Lemma analyzeFile_estimate_well_formed_witness :
  exists r s',
    analyzeFile 125000 readable_file
                (constructor (Some (decodes_to half_second_of_silence)))
    = Normal r s'
    /\ (exists z : Z, bpm r = inject_Z z /\ (60 <= z <= 200)%Z).
Proof.
  destruct (@analyzeFile_estimate_well_formed 125000
              (constructor (Some (decodes_to half_second_of_silence)))
              readable_file _ eq_refl) as (r & s' & E & B & _).
  exists r, s'. split; [exact E | exact B].
Defined.

End TempoOnExactNumbers.

(* ================================================================== *)
(** ** More on the quantizer, and the control panel *)
(* ================================================================== *)

Section QuantizerMore.
Import AudioProcessor.
Import ControlPanel.
Local Open Scope Q_scope.

Lemma closest_of_member (bpm c : Q) :
  In c (getRhythmicMultipliers bpm) ->
  getClosestRhythmicMultiplier c bpm = Some c.
Proof.
  unfold getClosestRhythmicMultiplier. rewrite multipliers_by_guard_Q.
  destruct (bpm <=? of_Z 0)%js; intro I; vm_compute in I;
    repeat (destruct I as [<- | I]; [vm_compute; reflexivity |]); destruct I.
Qed.

Lemma multipliers_in_range (bpm c : Q) :
  In c (getRhythmicMultipliers bpm) -> 1 # 4 <= c <= 3.
Proof.
  rewrite multipliers_by_guard_Q.
  destruct (bpm <=? of_Z 0)%js; intro I; vm_compute in I;
    repeat (destruct I as [<- | I]; [split; discriminate |]); destruct I.
Qed.

(** The scan of a non-empty list ends on a member at least distance. *)
Lemma scan_minimal (value first : Q) (rest : list Q) :
  let r := fst (fold_left (closest_step value) (first :: rest)
                          (first, distance value first)) in
  In r (first :: rest)
  /\ forall c, In c (first :: rest) -> distance value r <= distance value c.
Proof.
  destruct (closest_scan_from_head value first rest) as (r & p1 & p2 & F & S & L1 & L2).
  cbv zeta. rewrite F. split.
  - rewrite S. apply in_or_app. right. left. reflexivity.
  - intros c Hc. rewrite S in Hc. apply in_app_or in Hc.
    destruct Hc as [Hc | [Hc | Hc]].
    + apply Qlt_le_weak. auto.
    + subst c. apply Qle_refl.
    + auto.
Qed.

Lemma closest_minimal (value bpm : Q) :
  exists r,
    getClosestRhythmicMultiplier value bpm = Some r
    /\ In r (getRhythmicMultipliers bpm)
    /\ forall c, In c (getRhythmicMultipliers bpm) ->
                 distance value r <= distance value c.
Proof.
  unfold getClosestRhythmicMultiplier.
  destruct (getRhythmicMultipliers bpm) as [| first rest] eqn:L.
  - rewrite multipliers_by_guard_Q in L.
    destruct (bpm <=? of_Z 0)%js; discriminate L.
  - eexists. split; [reflexivity |]. apply scan_minimal.
Qed.

(** X14.  Snapping is a projection onto the candidates: the value
    [getClosestRhythmicMultiplier] returns is returned unchanged when it is
    snapped again, and it lies in the range [0.25, 3] of the multiplier
    slider. *)
Theorem closest_is_a_projection (value bpm : Q) :
  exists r,
    getClosestRhythmicMultiplier value bpm = Some r
    /\ getClosestRhythmicMultiplier r bpm = Some r
    /\ 1 # 4 <= r <= 3.
Proof.
  destruct (closest_minimal value bpm) as (r & E & I & _).
  exists r. split; [exact E | split].
  - apply closest_of_member, I.
  - apply (multipliers_in_range _ _ I).
Qed.

(** X15.  The slider handler of the control panel passes the value on
    unchanged as long as there is no analysis result or the panel holds no
    multipliers; otherwise it passes on a member of the multipliers it holds
    that is at least distance from the value, whatever list that is. *)
Theorem handleMultiplierChange_snaps
        (analysisResult : option (BPMAnalysisResult Q))
        (rhythmicMultipliers : list Q) (value : Q) :
  (analysisResult = None \/ rhythmicMultipliers = [] ->
   handleMultiplierChange analysisResult rhythmicMultipliers value = value)
  /\ (analysisResult <> None -> rhythmicMultipliers <> [] ->
      In (handleMultiplierChange analysisResult rhythmicMultipliers value)
         rhythmicMultipliers
      /\ forall c, In c rhythmicMultipliers ->
                   distance value
                            (handleMultiplierChange analysisResult rhythmicMultipliers value)
                   <= distance value c).
Proof.
  unfold handleMultiplierChange. split.
  - intros [-> | ->]; [reflexivity | destruct analysisResult; reflexivity].
  - intros A L. destruct analysisResult as [a |]; [| congruence].
    destruct rhythmicMultipliers as [| first rest]; [congruence |].
    apply scan_minimal.
Qed.

Lemma handleMultiplierChange_snaps_witness :
  handleMultiplierChange (Some fallback) [1 # 2; 2; 1] (13 # 10) = 1
  /\ handleMultiplierChange None [1 # 2; 2; 1] (13 # 10) = 13 # 10.
Proof.
  destruct (handleMultiplierChange_snaps (Some fallback) [1 # 2; 2; 1] (13 # 10))
    as [_ S].
  destruct (handleMultiplierChange_snaps None [1 # 2; 2; 1] (13 # 10)) as [P _].
  split; [| apply P; left; reflexivity].
  destruct S as [I _]; [discriminate | discriminate |].
  vm_compute. reflexivity.
Defined.

(** X16.  After an analysis the panel's multiplier is within 0.01 of the
    nearest candidate: [handleAnalyze] replaces it by that candidate when it
    is more than 0.01 away and leaves it alone otherwise. *)
Theorem snapOnAnalyze_near_candidate (autoMultiplier bpm : Q) :
  exists c,
    getClosestRhythmicMultiplier autoMultiplier bpm = Some c
    /\ In c (getRhythmicMultipliers bpm)
    /\ Qabs (snapOnAnalyze autoMultiplier bpm - c) <= 1 # 100
    /\ (1 # 100 < Qabs (c - autoMultiplier) -> snapOnAnalyze autoMultiplier bpm = c)
    /\ (Qabs (c - autoMultiplier) <= 1 # 100 ->
        snapOnAnalyze autoMultiplier bpm = autoMultiplier).
Proof.
  destruct (closest_minimal autoMultiplier bpm) as (c & E & I & _).
  exists c. split; [exact E | split; [exact I |]].
  unfold snapOnAnalyze. rewrite E.
  change (dec 1 100 : Q) with (1 # 100).
  cbn [num_lt num_sub Math_abs Q_Number].
  assert (A : Qabs (Qred (c - autoMultiplier)) == Qabs (c - autoMultiplier))
    by now rewrite Qred_correct.
  destruct (Q_lt (1 # 100) (Qabs (Qred (c - autoMultiplier)))) eqn:T;
    [apply Q_lt_true in T | apply Q_lt_false in T]; rewrite A in T.
  - repeat split; auto.
    + setoid_replace (c - c) with 0 by ring. discriminate.
    + intro U. exfalso. Lqa.lra.
  - repeat split; auto.
    + setoid_replace (autoMultiplier - c) with (- (c - autoMultiplier)) by ring.
      rewrite Qabs_opp. exact T.
    + intro U. exfalso. Lqa.lra.
Qed.

Lemma snapOnAnalyze_near_candidate_witness :
  snapOnAnalyze (13 # 10) 120 = 4 # 3 /\ snapOnAnalyze (301 # 300) 120 = 301 # 300.
Proof.
  destruct (snapOnAnalyze_near_candidate (13 # 10) 120) as (c & E & _ & _ & S & _).
  destruct (snapOnAnalyze_near_candidate (301 # 300) 120) as (d & F & _ & _ & _ & K).
  vm_compute in E. injection E as <-. vm_compute in F. injection F as <-.
  split; [apply S; vm_compute; reflexivity | apply K; vm_compute; discriminate].
Defined.

End QuantizerMore.

(* ================================================================== *)
(** ** The time label and the bars of the visualizer *)
(* ================================================================== *)

Section TimeLabel.
Import TimeFormat.
Local Open Scope Q_scope.

(** The floor of a number is the one integer at most one below it. *)
Lemma Qfloor_unique (a : Q) (z : Z) :
  inject_Z z <= a -> a < inject_Z (z + 1) -> Qfloor a = z.
Proof.
  intros L U.
  pose proof (Qfloor_le a) as F1. pose proof (Qlt_floor a) as F2.
  assert (A : (z < Qfloor a + 1)%Z).
  { rewrite Zlt_Qlt. eapply Qle_lt_trans; [exact L | exact F2]. }
  assert (B : (Qfloor a < z + 1)%Z).
  { rewrite Zlt_Qlt. eapply Qle_lt_trans; [exact F1 | exact U]. }
  lia.
Qed.

Lemma Qfloor_shift (a : Q) (k : Z) :
  Qfloor (a - inject_Z k) = (Qfloor a - k)%Z.
Proof.
  apply Qfloor_unique.
  - pose proof (Qfloor_le a). unfold Zminus. rewrite inject_Z_plus, inject_Z_opp.
    Lqa.lra.
  - pose proof (Qlt_floor a) as F.
    replace (Qfloor a - k + 1)%Z with ((Qfloor a + 1) + - k)%Z by lia.
    rewrite inject_Z_plus, inject_Z_opp. Lqa.lra.
Qed.

Lemma Qfloor_div_60 (a : Q) : Qfloor (a / 60) = (Qfloor a / 60)%Z.
Proof.
  pose proof (Qfloor_le a) as F1. pose proof (Qlt_floor a) as F2.
  pose proof (Z.div_mod (Qfloor a) 60 ltac:(lia)) as D.
  pose proof (Z.mod_pos_bound (Qfloor a) 60 ltac:(lia)) as R.
  set (m := (Qfloor a / 60)%Z) in *. set (r := (Qfloor a mod 60)%Z) in *.
  assert (L : inject_Z (60 * m) <= inject_Z (Qfloor a))
    by (rewrite <- Zle_Qle; lia).
  assert (U : inject_Z (Qfloor a + 1) <= inject_Z (60 * (m + 1)))
    by (rewrite <- Zle_Qle; lia).
  rewrite inject_Z_mult in L, U.
  change (inject_Z 60) with 60 in *.
  apply Qfloor_unique.
  - apply Qle_shift_div_l; [reflexivity |]. Lqa.lra.
  - apply Qlt_shift_div_r; [reflexivity |]. Lqa.lra.
Qed.

Lemma two_digits_padStart (n : nat) :
  (n < 60)%nat ->
  padStart2 (toString (Z.of_nat n)) = two_digits (Z.of_nat n).
Proof.
  intro L.
  do 60 (destruct n as [| n]; [vm_compute; reflexivity |]).
  lia.
Qed.

(** X17.  For a time that is not negative and below 2^53 seconds, so that
    the minutes are an integer a double holds and prints digit by digit,
    [formatTime] gives the whole seconds of it as minutes, a colon, and the
    seconds left over in two digits; the minutes are not reduced to hours. *)
Theorem formatTime_minutes_seconds (seconds : Q) :
  0 <= seconds ->
  seconds < inject_Z (2 ^ 53) ->
  formatTime seconds
  = (toString (Qfloor seconds / 60) ++ ":"
     ++ two_digits (Qfloor seconds mod 60))%string.
Proof.
  intros P _. unfold formatTime. cbv zeta.
  assert (D : 0 <= seconds / 60).
  { apply Qle_shift_div_l; [reflexivity |]. Lqa.lra. }
  assert (T : Q_trunc (seconds / 60) = (Qfloor seconds / 60)%Z).
  { unfold Q_trunc. rewrite (proj2 (Qle_bool_iff 0 (seconds / 60)) D).
    apply Qfloor_div_60. }
  assert (R : Qfloor (Q_rem seconds 60) = (Qfloor seconds mod 60)%Z).
  { unfold Q_rem. rewrite T.
    rewrite (Qfloor_comp _ (seconds - inject_Z (60 * (Qfloor seconds / 60))))
      by (rewrite inject_Z_mult; reflexivity).
    rewrite Qfloor_shift. rewrite Z.mod_eq by lia. reflexivity. }
  rewrite R, Qfloor_div_60.
  pose proof (Z.mod_pos_bound (Qfloor seconds) 60 ltac:(lia)) as B.
  rewrite <- (Z2Nat.id (Qfloor seconds mod 60)) by lia.
  rewrite two_digits_padStart by lia.
  reflexivity.
Qed.

Lemma formatTime_minutes_seconds_witness :
  formatTime (7505 # 2) = "62:32"%string.
Proof.
  rewrite (@formatTime_minutes_seconds (7505 # 2));
    [reflexivity | discriminate | reflexivity].
Defined.

End TimeLabel.

Section Bars.
Import WaveformVisualizer.
Local Open Scope Q_scope.

Lemma byte_at_most_255 (b : Byte.byte) : (0 <= Z.of_N (Byte.to_N b) <= 255)%Z.
Proof.
  pose proof (Byte.to_N_bounded b) as B. lia.
Qed.

Lemma barHeight_Q (data : list Byte.byte) (barCount index : nat) (random : Q) :
  barHeight (Some data) barCount index random
  = if (0 <? length data)%nat then
      if (barCount =? 0)%nat then None else
      if (Qfloor (Q_floor (Qred (Qred (inject_Z (Z.of_nat index)
                                       / inject_Z (Z.of_nat barCount))
                                 * inject_Z (Z.of_nat (length data))))) <? 0)%Z
      then None else
      match nth_error data
              (Z.to_nat
                 (Qfloor (Q_floor (Qred (Qred (inject_Z (Z.of_nat index)
                                               / inject_Z (Z.of_nat barCount))
                                         * inject_Z (Z.of_nat (length data)))))))
      with
      | Some b =>
          Some (Qred (Qred (Qred (inject_Z (Z.of_N (Byte.to_N b)) / 255) * (4 # 5))
                      + (1 # 5)))
      | None => None
      end
    else Some (Qred (Qred (random * (3 # 5)) + (1 # 5))).
Proof. reflexivity. Qed.

(** X18.  With analyser data that is not empty, the bar [index] of
    [barCount] bars reads inside the data, at the index
    [floor (index * length / barCount)], and its height is
    [byte / 255 * 0.8 + 0.2], between 0.2 and 1; with [barCount] zero, or a
    bar at or beyond [barCount], the read is outside the data and there is
    no height. *)
Theorem barHeight_reads_inside (data : list Byte.byte)
        (barCount index : nat) (random : Q) :
  data <> [] ->
  ((index < barCount)%nat ->
   exists b h,
     nth_error data (Z.to_nat (Z.of_nat index * Z.of_nat (length data)
                               / Z.of_nat barCount)) = Some b
     /\ barHeight (Some data) barCount index random = Some h
     /\ h == inject_Z (Z.of_N (Byte.to_N b)) / 255 * (4 # 5) + (1 # 5)
     /\ 1 # 5 <= h <= 1)
  /\ ((barCount <= index)%nat ->
      barHeight (Some data) barCount index random = None).
Proof.
  intro NE.
  assert (LEN : (0 < length data)%nat) by (destruct data; [congruence | cbn; lia]).
  rewrite barHeight_Q. rewrite (proj2 (Nat.ltb_lt _ _) LEN).
  unfold Q_floor. rewrite Qfloor_Z.
  assert (IDX : (0 < barCount)%nat ->
                Qfloor (Qred (Qred (inject_Z (Z.of_nat index) / inject_Z (Z.of_nat barCount))
                              * inject_Z (Z.of_nat (length data))))
                = (Z.of_nat index * Z.of_nat (length data) / Z.of_nat barCount)%Z).
  { intro BC.
    rewrite (Qfloor_comp _ (inject_Z (Z.of_nat index * Z.of_nat (length data))
                            / inject_Z (Z.of_nat barCount))).
    - symmetry. apply Zdiv_Qdiv.
    - rewrite !Qred_correct, inject_Z_mult.
      field. intro Z0. unfold Qeq in Z0. cbn in Z0. lia. }
  split.
  - intro L. assert (BC : (0 < barCount)%nat) by lia.
    rewrite (proj2 (Nat.eqb_neq _ _)) by lia.
    rewrite (IDX BC).
    set (i := (Z.of_nat index * Z.of_nat (length data) / Z.of_nat barCount)%Z).
    assert (R : (0 <= i < Z.of_nat (length data))%Z).
    { unfold i. split.
      - apply Z.div_pos; lia.
      - apply Z.div_lt_upper_bound; nia. }
    rewrite (proj2 (Z.ltb_ge _ _)) by lia.
    destruct (nth_error data (Z.to_nat i)) as [b |] eqn:E.
    + exists b. eexists. split; [reflexivity | split; [reflexivity |]].
      pose proof (byte_at_most_255 b) as B.
      rewrite !Qred_correct.
      assert (B0 : 0 <= inject_Z (Z.of_N (Byte.to_N b)))
        by (change 0 with (inject_Z 0); rewrite <- Zle_Qle; lia).
      assert (B1 : inject_Z (Z.of_N (Byte.to_N b)) <= 255)
        by (change 255 with (inject_Z 255); rewrite <- Zle_Qle; lia).
      set (v := inject_Z (Z.of_N (Byte.to_N b))) in *.
      assert (V0 : 0 <= v / 255) by (apply Qle_shift_div_l; [reflexivity | Lqa.lra]).
      assert (V1 : v / 255 <= 1) by (apply Qle_shift_div_r; [reflexivity | Lqa.lra]).
      split; [reflexivity | split; Lqa.lra].
    + exfalso. apply nth_error_None in E. lia.
  - intro L. destruct (barCount =? 0)%nat eqn:Z0; [reflexivity |].
    apply Nat.eqb_neq in Z0.
    rewrite (IDX ltac:(lia)).
    set (i := (Z.of_nat index * Z.of_nat (length data) / Z.of_nat barCount)%Z).
    assert (R : (Z.of_nat (length data) <= i)%Z).
    { unfold i. apply Z.div_le_lower_bound; nia. }
    rewrite (proj2 (Z.ltb_ge _ _)) by lia.
    destruct (nth_error data (Z.to_nat i)) as [b |] eqn:E; [| reflexivity].
    exfalso. assert (E' : nth_error data (Z.to_nat i) <> None) by congruence.
    apply nth_error_Some in E'. lia.
Qed.

Lemma barHeight_reads_inside_witness :
  (exists b h,
      nth_error [Byte.x00; Byte.xff; Byte.x66; Byte.x33] 2 = Some b
      /\ barHeight (Some [Byte.x00; Byte.xff; Byte.x66; Byte.x33]) 10 7 (1 # 2)
         = Some h
      /\ h == inject_Z (Z.of_N (Byte.to_N b)) / 255 * (4 # 5) + (1 # 5)
      /\ 1 # 5 <= h <= 1)
  /\ barHeight (Some [Byte.x00; Byte.xff; Byte.x66; Byte.x33]) 10 10 (1 # 2)
     = None.
Proof.
  destruct (@barHeight_reads_inside
              [Byte.x00; Byte.xff; Byte.x66; Byte.x33] 10 7 (1 # 2)
              ltac:(discriminate)) as [I _].
  destruct (@barHeight_reads_inside
              [Byte.x00; Byte.xff; Byte.x66; Byte.x33] 10 10 (1 # 2)
              ltac:(discriminate)) as [_ O].
  split; [apply I; lia | apply O; lia].
Defined.

End Bars.

(* ================================================================== *)
(** ** The tempo estimate and the volume of the recording *)
(* ================================================================== *)

Section Volume.
Import AudioProcessor.
Local Open Scope Q_scope.

Variable c : Q.
Hypothesis c_not_zero : ~ c == 0.
Variable maxArguments : Z.

Local Abbreviation k := (c * c).

Lemma square_positive : 0 < k.
Proof.
  destruct (Q_dec c 0) as [[L | G] | E]; [| | contradiction].
  - setoid_replace (c * c) with ((- c) * (- c)) by ring.
    apply Qmult_lt_0_compat; Lqa.lra.
  - apply Qmult_lt_0_compat; assumption.
Qed.

Lemma at_index_scaled (l : list Q) (j : nat) :
  at_index (map (fun x => (c * x)%js) l) j == c * at_index l j.
Proof.
  unfold at_index. revert j.
  induction l as [| x l IH]; intros [| j]; cbn [map nth of_Z num_mul Q_Number];
    try (change (inject_Z 0) with 0; ring).
  - apply Qred_correct.
  - apply IH.
Qed.

Lemma windowSum_scaled (l : list Q) (i windowSize : Z) :
  windowSum (map (fun x => (c * x)%js) l) i windowSize
  == k * windowSum l i windowSize.
Proof.
  unfold windowSum.
  assert (G : forall js a a',
             a' == k * a ->
             fold_left (fun sum j =>
                          (sum + at_index (map (fun x => (c * x)%js) l) j
                                 * at_index (map (fun x => (c * x)%js) l) j)%js)
                       js a'
             == k * fold_left (fun sum j => (sum + at_index l j * at_index l j)%js)
                              js a).
  { induction js as [| j js IH]; intros a a' E; [exact E |].
    cbn [fold_left]. apply IH.
    cbn [num_add num_mul Q_Number]. rewrite !Qred_correct.
    rewrite (at_index_scaled l j), E. ring. }
  apply G. cbn [of_Z Q_Number]. change (inject_Z 0) with 0. ring.
Qed.

Lemma energyLoop_scaled (l : list Q) (windowSize hopSize : Z) :
  forall (fuel : nat) (i : Z),
    match energyLoop (map (fun x => (c * x)%js) l) windowSize hopSize fuel i,
          energyLoop l windowSize hopSize fuel i with
    | Some e', Some e => louder k e e'
    | None, None => True
    | _, _ => False
    end.
Proof.
  induction fuel as [| fuel IH]; intro i; cbn [energyLoop]; rewrite length_map;
    destruct (i <? Z.of_nat (length l) - windowSize)%Z; try exact I;
    try (constructor; fail).
  specialize (IH (i + hopSize)%Z).
  destruct (energyLoop (map (fun x => (c * x)%js) l) windowSize hopSize fuel
                       (i + hopSize)) as [e' |],
           (energyLoop l windowSize hopSize fuel (i + hopSize)) as [e |];
    cbn [option_map]; try exact IH.
  constructor; [| exact IH].
  cbn [num_div Q_Number]. rewrite !Qred_correct, windowSum_scaled.
  unfold Qdiv. ring.
Qed.

Lemma at_index_louder (e e' : list Q) (j : nat) :
  louder k e e' -> at_index e' j == k * at_index e j.
Proof.
  unfold at_index. intro L. revert j.
  induction L as [| a a' e e' E L IH]; intros [| j]; cbn [nth of_Z Q_Number];
    try (change (inject_Z 0) with 0; ring).
  - exact E.
  - apply IH.
Qed.

Lemma Q_lt_louder (a a' b b' : Q) :
  a' == k * a -> b' == k * b -> Q_lt a' b' = Q_lt a b.
Proof.
  intros Ea Eb. pose proof square_positive as P.
  destruct (Q_lt a b) eqn:T; [apply Q_lt_true in T | apply Q_lt_false in T].
  - apply Q_lt_true. rewrite Ea, Eb. apply Qmult_lt_l; assumption.
  - apply Q_lt_false. rewrite Ea, Eb. apply Qmult_le_l; assumption.
Qed.

Lemma Math_max_louder (e e' : list Q) :
  louder k e e' -> Math_max_list e' == k * Math_max_list e.
Proof.
  intro L. destruct L as [| a a' e e' E L];
    cbn [Math_max_list of_Z Q_Number]; [change (inject_Z 0) with 0; ring |].
  revert a a' E. induction L as [| b b' e e' Eb L IH]; intros a a' E; [exact E |].
  cbn [fold_left]. apply IH. cbn [Math_max Q_Number].
  rewrite (Q_lt_louder E Eb). destruct (Q_lt a b); assumption.
Qed.

Lemma peakLoop_louder (e e' : list Q) (hopSize rate : Z) :
  louder k e e' ->
  forall indices,
    peakLoop maxArguments e' hopSize rate indices
    = peakLoop maxArguments e hopSize rate indices.
Proof.
  intro L. induction indices as [| i rest IH]; [reflexivity |].
  cbn [peakLoop]. rewrite IH. unfold Math_max_spread.
  rewrite <- (Forall2_length L).
  cbn [num_lt Q_Number].
  rewrite (Q_lt_louder (at_index_louder (i - 1) L) (at_index_louder i L)).
  rewrite (Q_lt_louder (at_index_louder (i + 1) L) (at_index_louder i L)).
  assert (T : (Math_max_list e' * dec 3 10)%js
              == k * (Math_max_list e * dec 3 10)%js).
  { cbn [num_mul Q_Number]. rewrite !Qred_correct, (Math_max_louder L). ring. }
  destruct (maxArguments <? Z.of_nat (length e))%Z;
    [reflexivity |].
  rewrite (Q_lt_louder T (at_index_louder i L)).
  reflexivity.
Qed.

(** On exact numbers the estimate does not depend on the volume. *)
Lemma detectBPM_scaled (this : state Q) (buf : AudioBuffer Q) :
  outcome (detectBPM maxArguments (holding this (scaled c buf)))
  = outcome (detectBPM maxArguments (holding this buf)).
Proof.
  unfold detectBPM, holding, scaled.
  cbn [audioBuffer audioContext channelData0 sampleRate].
  destruct (audioContext this) as [ctx |]; [| reflexivity].
  rewrite length_map.
  pose proof (energyLoop_scaled (channelData0 buf)
                (windowSizeOf (N := Q) (sampleRate buf))
                (hopSizeOf (N := Q) (windowSizeOf (N := Q) (sampleRate buf)))
                (S (Z.to_nat (Z.of_nat (length (channelData0 buf))
                              - windowSizeOf (N := Q) (sampleRate buf)))) 0) as L.
  destruct (energyLoop (map (fun x => (c * x)%js) (channelData0 buf)) _ _ _ _)
    as [e' |],
    (energyLoop (channelData0 buf) _ _ _ _) as [e |];
    try contradiction; [| reflexivity].
  unfold findPeaks. rewrite <- (Forall2_length L).
  rewrite (peakLoop_louder _ _ L).
  destruct (peakLoop maxArguments e _ _ _) as [peaks |]; [| reflexivity].
  destruct (length (peakIntervals peaks) =? 0)%nat; reflexivity.
Qed.

End Volume.

Section VolumeOnBothCarriers.
Import AudioProcessor.

(** X19.  The tempo estimate and the volume of the recording.  On exact
    numbers the estimate does not depend on the volume: with every sample
    multiplied by the same factor, not zero, [detectBPM] ends in the same way
    with the same value.  The program computes on binary64, and there the
    estimate does depend on it: the recording [square_wave], whose windows
    all hold the same samples, has no peak and gives 120, and the same
    recording at three quarters of the volume gives 200, the sum of the
    squares being rounded one way when a window starts with the loud half
    and the other way when it starts with the quiet half. *)
Theorem detectBPM_and_volume :
  (forall (maxArguments : Z) (c : Q) (this : state Q) (buf : AudioBuffer Q),
      ~ (c == 0)%Q ->
      outcome (detectBPM maxArguments (holding this (scaled c buf)))
      = outcome (detectBPM maxArguments (holding this buf)))
  /\ returned (detectBPM 125000
                 (holding (constructor (Some (decodes_to square_wave)))
                          (square_wave (N := float))))
     = Some (of_Z 120)
  /\ returned (detectBPM 125000
                 (holding (constructor (Some (decodes_to square_wave)))
                          (scaled (dec 75 100) (square_wave (N := float)))))
     = Some (of_Z 200).
Proof.
  split; [| split].
  - intros maxArguments c this buf NZ. apply detectBPM_scaled, NZ.
  - vm_cast_no_check (eq_refl (Some (of_Z 120 : float))).
  - vm_cast_no_check (eq_refl (Some (of_Z 200 : float))).
Qed.

Lemma detectBPM_and_volume_witness :
  outcome (detectBPM 125000
             (holding (constructor (Some (decodes_to square_wave)))
                      (scaled (3 # 4)%Q square_wave)))
  = Normal 120%Q tt.
Proof.
  rewrite (proj1 detectBPM_and_volume 125000%Z (3 # 4)%Q _ _ ltac:(discriminate)).
  vm_compute. reflexivity.
Defined.

End VolumeOnBothCarriers.
